(** * wikidump: download, verify, spool and decompress Wikipedia dump files

    A shallow embedding of the Go package [wikidump] (the hub with its
    iterator, the retrying fetcher, the spooling store and the
    decompression helpers) together with the properties its description
    states about it.

    The program talks to a file system, to the network, to a clock and to
    an external archive tool.  All of them live in an explicit [World]
    that every operation threads through; what the outside decides (an
    injected failure, the random suffix of a temporary file, the body of
    an HTTP response, the listing of an archive) is read from an
    environment indexed by the number of interactions made so far, so
    that every definition stays executable and every theorem ranges over
    all behaviours of the outside. *)

From Stdlib Require Import ZArith Lia Ascii String.
From Stdlib.Strings Require Import Byte.
From stdpp Require Import gmap strings list pretty.

Local Open Scope string_scope.
Local Open Scope Z_scope.

(** ** Errors

    Go errors as data.  [New] and [Wrap] are the constructors of
    github.com/pkg/errors; the others are the sentinels and the foreign
    errors the package can meet. *)

Inductive error : Type :=
| EOF                                   (* io.EOF *)
| Canceled                              (* context.Canceled *)
| DeadlineExceeded                      (* context.DeadlineExceeded *)
| ErrClosed                             (* os.ErrClosed *)
| ErrInvalid                            (* os.ErrInvalid *)
| ErrNotExist                           (* os.ErrNotExist *)
| ErrExist                              (* os.ErrExist *)
| ExitError (status : Z)                (* *exec.ExitError with its exit status *)
| Foreign (msg : string)                (* any other error of the outside *)
| New (msg : string)                    (* errors.New, errors.Errorf *)
| Wrap (cause : error) (msg : string).  (* errors.Wrap, errors.Wrapf *)

#[global] Instance error_eq_dec : EqDecision error.
Proof. solve_decision. Defined.

(** errors.Wrap and errors.Wrapf return nil when the error is nil. *)
Definition errors_Wrap (e : option error) (msg : string) : option error :=
  match e with
  | None => None
  | Some c => Some (Wrap c msg)
  end.

(** ** crypto/sha1 and the "%x" verb

    The digest of the Go standard library (FIPS 180-4), on 32-bit words
    kept in [Z] with the wrap-around written out. *)

Module sha1.

Definition w32 (z : Z) : Z := z mod 2 ^ 32.

Definition rotl (n x : Z) : Z :=
  w32 (Z.lor (Z.shiftl x n) (Z.shiftr x (32 - n))).

Definition be_bytes (n : nat) (z : Z) : list Z :=
  map (fun i => (Z.shiftr z (8 * Z.of_nat i)) mod 256) (rev (seq 0 n)).

Definition pad (msg : list Z) : list Z :=
  let len := Z.of_nat (length msg) in
  msg ++ [128] ++ repeat 0 (Z.to_nat ((55 - len) mod 64)) ++ be_bytes 8 (8 * len).

Definition be_word (bs : list Z) : Z :=
  fold_left (fun acc b => acc * 256 + b) bs 0.

Fixpoint words (n : nat) (bs : list Z) : list Z :=
  match n with
  | O => []
  | S n' => be_word (take 4 bs) :: words n' (drop 4 bs)
  end.

(** The message schedule, most recent word first. *)
Fixpoint schedule (n : nat) (rw : list Z) : list Z :=
  match n with
  | O => rw
  | S n' =>
      let x := Z.lxor (Z.lxor (nth 2 rw 0) (nth 7 rw 0))
                      (Z.lxor (nth 13 rw 0) (nth 15 rw 0)) in
      schedule n' (rotl 1 x :: rw)
  end.

Definition state : Type := Z * Z * Z * Z * Z.

Definition round (i : nat) (s : state) (wi : Z) : state :=
  let '(a, b, c, d, e) := s in
  let '(f, k) :=
    if (i <? 20)%nat then
      (Z.lor (Z.land b c) (Z.land (Z.lxor b (2 ^ 32 - 1)) d), 0x5A827999)
    else if (i <? 40)%nat then
      (Z.lxor (Z.lxor b c) d, 0x6ED9EBA1)
    else if (i <? 60)%nat then
      (Z.lor (Z.lor (Z.land b c) (Z.land b d)) (Z.land c d), 0x8F1BBCDC)
    else
      (Z.lxor (Z.lxor b c) d, 0xCA62C1D6) in
  (w32 (rotl 5 a + f + e + k + wi), a, rotl 30 b, c, d).

Fixpoint rounds (i : nat) (s : state) (ws : list Z) : state :=
  match ws with
  | [] => s
  | wi :: ws' => rounds (S i) (round i s wi) ws'
  end.

Definition block (h : state) (bs : list Z) : state :=
  let ws := rev (schedule 64 (rev (words 16 bs))) in
  let '(h0, h1, h2, h3, h4) := h in
  let '(a, b, c, d, e) := rounds 0 h ws in
  (w32 (h0 + a), w32 (h1 + b), w32 (h2 + c), w32 (h3 + d), w32 (h4 + e)).

Fixpoint blocks (n : nat) (h : state) (bs : list Z) : state :=
  match n with
  | O => h
  | S n' => blocks n' (block h (take 64 bs)) (drop 64 bs)
  end.

Definition init : state :=
  (0x67452301, 0xEFCDAB89, 0x98BADCFE, 0x10325476, 0xC3D2E1F0).

Definition byte_of_Z (z : Z) : byte :=
  default Byte.x00 (Byte.of_N (Z.to_N z)).

Definition Z_of_byte (b : byte) : Z := Z.of_N (Byte.to_N b).

(** [Sum data] is hash.Sum(nil) after [data] has been written to a
    fresh sha1.New(). *)
Definition Sum (data : list byte) : list byte :=
  let p := pad (map Z_of_byte data) in
  let '(h0, h1, h2, h3, h4) := blocks (length p / 64) init p in
  map byte_of_Z (be_bytes 4 h0 ++ be_bytes 4 h1 ++ be_bytes 4 h2
                   ++ be_bytes 4 h3 ++ be_bytes 4 h4).

End sha1.

Definition hex_digit (n : N) : ascii :=
  match n with
  | 0%N => "0" | 1%N => "1" | 2%N => "2" | 3%N => "3" | 4%N => "4"
  | 5%N => "5" | 6%N => "6" | 7%N => "7" | 8%N => "8" | 9%N => "9"
  | 10%N => "a" | 11%N => "b" | 12%N => "c" | 13%N => "d" | 14%N => "e"
  | _ => "f"
  end%char.

(** fmt.Sprintf("%x", bs) for a byte slice: two lower-case digits a byte. *)
Fixpoint Sprintf_x (bs : list byte) : string :=
  match bs with
  | [] => ""
  | b :: bs' =>
      let n := Byte.to_N b in
      String (hex_digit (n / 16)) (String (hex_digit (n mod 16)) (Sprintf_x bs'))
  end.

Definition bytes_of_string (s : string) : list byte := list_byte_of_string s.


(** ** The world outside the program *)

(** An open os.File: its descriptor and the name it was opened with. *)
Record File : Type := { fd : nat; File_Name : string }.

(** An HTTP response body: the chunks its successive [Read]s deliver and
    how the stream ends ([None] is a clean io.EOF). *)
Record Body : Type := { chunks : list (list byte); read_err : option error }.

(** An entry of an archive listing (lzmadec.Entry). *)
Record Entry : Type := { Path : string }.

(** What the outside answers at its [k]-th interaction with the program. *)
Record Env : Type := {
  env_fault : nat -> option error;   (* the call fails with this error *)
  env_suffix : nat -> string;        (* random part of a temporary name *)
  env_body : nat -> Body;            (* body of the HTTP response *)
  env_entries : nat -> list Entry;   (* listing of the archive *)
  env_coin : nat -> bool             (* choice of a select with two ready cases *)
}.

(** Bookkeeping of the model: entries into [store] and timers started. *)
Inductive Event : Type :=
| EvStore (url : string)
| EvTimer (t : Z).

Record World : Type := {
  env : Env;
  tick : nat;                        (* interactions made so far *)
  fs : gmap string (list byte);      (* files on disk, by name *)
  live : gset nat;                   (* open descriptors and decoders *)
  now : Z;                           (* the clock, in nanoseconds *)
  trace : list Event                 (* most recent event first *)
}.

Definition set_tick (k : nat) (w : World) : World :=
  {| env := env w; tick := k; fs := fs w; live := live w; now := now w; trace := trace w |}.
Definition set_fs (m : gmap string (list byte)) (w : World) : World :=
  {| env := env w; tick := tick w; fs := m; live := live w; now := now w; trace := trace w |}.
Definition set_live (s : gset nat) (w : World) : World :=
  {| env := env w; tick := tick w; fs := fs w; live := s; now := now w; trace := trace w |}.
Definition set_now (t : Z) (w : World) : World :=
  {| env := env w; tick := tick w; fs := fs w; live := live w; now := t; trace := trace w |}.
Definition log (e : Event) (w : World) : World :=
  {| env := env w; tick := tick w; fs := fs w; live := live w; now := now w;
     trace := e :: trace w |}.

(** ** Computations: state passing, with Go's panic *)

Inductive outcome (A : Type) : Type :=
| Done (a : A)              (* normal return *)
| Panicked (msg : string)   (* a run-time panic unwinds the call *)
| OutOfFuel.                (* the model of a loop ran out of fuel *)
Arguments Done {A} a.
Arguments Panicked {A} msg.
Arguments OutOfFuel {A}.

Definition M (A : Type) : Type := World -> outcome A * World.

Definition ret {A} (a : A) : M A := fun w => (Done a, w).

Definition bind {A B} (c : M A) (k : A -> M B) : M B :=
  fun w =>
    match c w with
    | (Done a, w') => k a w'
    | (Panicked msg, w') => (Panicked msg, w')
    | (OutOfFuel, w') => (OutOfFuel, w')
    end.

Notation "x <- c ;; k" := (bind c (fun x => k))
  (at level 20, c at level 99, k at level 200, only parsing).
Notation "'exec' c ;; k" := (bind c (fun _ => k))
  (at level 20, c at level 99, k at level 200, only parsing).
Notation "' pat <- c ;; k" := (bind c (fun x => match x with pat => k end))
  (at level 20, pat pattern, c at level 99, k at level 200, only parsing).

Definition panic {A} (msg : string) : M A := fun w => (Panicked msg, w).
Definition get : M World := fun w => (Done w, w).
Definition modify (f : World -> World) : M unit := fun w => (Done tt, f w).

Definition nil_dereference : string :=
  "runtime error: invalid memory address or nil pointer dereference".

(** One interaction with the outside: its index and the failure injected
    there, if any. *)
Definition ask : M (nat * option error) :=
  fun w => (Done (tick w, env_fault (env w) (tick w)), set_tick (S (tick w)) w).

(** ** os, io/ioutil, path *)

Fixpoint drop_slashes (l : list ascii) : list ascii :=
  match l with
  | "/"%char :: l' => drop_slashes l'
  | _ => l
  end.

Fixpoint upto_slash (l : list ascii) : list ascii :=
  match l with
  | [] => []
  | c :: l' => if decide (c = "/"%char) then [] else c :: upto_slash l'
  end.

(** path.Base: the last element of a path, trailing slashes removed. *)
Definition path_Base (p : string) : string :=
  if decide (p = "") then "."
  else
    match upto_slash (drop_slashes (rev (list_ascii_of_string p))) with
    | [] => "/"
    | l => string_of_list_ascii (rev l)
    end.

(** ioutil.TempFile: a new file, open for writing, whose name is the
    prefix followed by a random string, inside [dir].  A name that is
    taken is reported as os.ErrExist, what the library does once it gives
    up drawing names. *)
Definition ioutil_TempFile (dir prefix : string) : M (option File * option error) :=
  '(k, f) <- ask ;;
  match f with
  | Some e => ret (None, Some e)
  | None =>
      w <- get ;;
      let nm := dir +:+ "/" +:+ prefix +:+ env_suffix (env w) k in
      match fs w !! nm with
      | Some _ => ret (None, Some ErrExist)
      | None =>
          exec modify (fun w => set_live ({[k]} ∪ live w) (set_fs (<[nm := []]> (fs w)) w)) ;;
          ret (Some {| fd := k; File_Name := nm |}, None)
      end
  end.

(** os.Open: on failure the file returned is nil. *)
Definition os_Open (nm : string) : M (option File * option error) :=
  '(k, f) <- ask ;;
  match f with
  | Some e => ret (None, Some e)
  | None =>
      w <- get ;;
      match fs w !! nm with
      | None => ret (None, Some ErrNotExist)
      | Some _ =>
          exec modify (fun w => set_live ({[k]} ∪ live w) w) ;;
          ret (Some {| fd := k; File_Name := nm |}, None)
      end
  end.

Definition os_Remove (nm : string) : M (option error) :=
  '(_, f) <- ask ;;
  match f with
  | Some e => ret (Some e)
  | None =>
      w <- get ;;
      match fs w !! nm with
      | None => ret (Some ErrNotExist)
      | Some _ => exec modify (fun w => set_fs (delete nm (fs w)) w) ;; ret None
      end
  end.

(** Close of an os.File pointer: a nil receiver is os.ErrInvalid, a
    closed file os.ErrClosed; otherwise the descriptor is released
    whatever the system call reports. *)
Definition File_Close (f : option File) : M (option error) :=
  match f with
  | None => ret (Some ErrInvalid)
  | Some f =>
      w <- get ;;
      if decide (fd f ∈ live w) then
        '(_, e) <- ask ;;
        exec modify (fun w => set_live (live w ∖ {[fd f]}) w) ;;
        ret e
      else ret (Some ErrClosed)
  end.

(** Name of an os.File pointer reads a field of its receiver: a nil
    receiver panics. *)
Definition File_Name_of (f : option File) : M string :=
  match f with
  | None => panic nil_dereference
  | Some f => ret (File_Name f)
  end.

Definition File_Write (f : option File) (bs : list byte) : M (option error) :=
  match f with
  | None => ret (Some ErrInvalid)
  | Some f =>
      w <- get ;;
      if decide (fd f ∈ live w) then
        '(_, e) <- ask ;;
        match e with
        | Some e => ret (Some e)
        | None =>
            exec modify
              (fun w => set_fs (alter (fun old => (old ++ bs)%list) (File_Name f) (fs w)) w) ;;
            ret None
        end
      else ret (Some ErrClosed)
  end.

(** Reading a whole file, as io.Copy from it does. *)
Definition File_ReadAll (f : option File) : M (list byte * option error) :=
  match f with
  | None => ret ([], Some ErrInvalid)
  | Some f =>
      w <- get ;;
      if decide (fd f ∈ live w) then
        '(_, e) <- ask ;;
        match e with
        | Some e => ret ([], Some e)
        | None => ret (default [] (fs w !! File_Name f), None)
        end
      else ret ([], Some ErrClosed)
  end.

(** ** compress/gzip, compress/bzip2, lzmadec, net/http, context, time *)

(** The dynamic type of an io.Reader value. *)
Inductive Reader : Type :=
| R_File (f : File)                      (* an os.File pointer *)
| R_gzip (id : nat) (src : Reader)       (* a gzip.Reader decoding [src] *)
| R_bzip2 (src : Reader)                 (* a bzip2 reader over a bufio.Reader over [src] *)
| R_entry (archive path : string)        (* the reader of one archive entry *)
| R_other (id : nat).

(** gzip.NewReader reads the header of its source and fails on a bad one;
    a decoder is identified by the interaction that created it. *)
Definition gzip_NewReader (src : Reader) : M (nat + error) :=
  '(k, f) <- ask ;;
  match f with
  | Some e => ret (inr e)
  | None => exec modify (fun w => set_live ({[k]} ∪ live w) w) ;; ret (inl k)
  end.

Definition gzip_Close (id : nat) : M (option error) :=
  '(_, e) <- ask ;;
  exec modify (fun w => set_live (live w ∖ {[id]}) w) ;;
  ret e.

(** lzmadec.Archive, as the package uses it. *)
Record Archive : Type := { arch_path : string; Entries : list Entry }.

(** lzmadec.NewArchive runs the external tool to list the archive. *)
Definition lzmadec_NewArchive (fname : string) : M (Archive + error) :=
  '(k, f) <- ask ;;
  match f with
  | Some e => ret (inr e)
  | None =>
      w <- get ;;
      ret (inl {| arch_path := fname; Entries := env_entries (env w) k |})
  end.

Definition Archive_GetFileReader (a : Archive) (path : string)
  : M (Reader + error) :=
  '(_, f) <- ask ;;
  match f with
  | Some e => ret (inr e)
  | None => ret (inl (R_entry (arch_path a) path))
  end.

(** A context.Context: the instant its Done channel is closed, if ever,
    and what Err reports from then on. *)
Record Context : Type := { done_at : option Z; ctx_Err : error }.

Definition time_Second : Z := 1000000000.
Definition time_Hour : Z := 3600 * time_Second.

(** time.Duration is an int64. *)
Definition int64 (z : Z) : Z := (z + 2 ^ 63) mod 2 ^ 64 - 2 ^ 63.

(** select { case <-ctx.Done(): ...; case <-time.After(t): ... }: the case
    that becomes ready first is taken; when both are ready at the same
    instant the choice is the runtime's.  Returns [true] for the Done
    case. *)
Definition select_Done_After (ctx : Context) (t : Z) : M bool :=
  fun w =>
    let w1 := log (EvTimer t) w in
    let timer := Z.max (now w) (now w + t) in
    match done_at ctx with
    | None => (Done false, set_now timer w1)
    | Some c =>
        let cancel := Z.max (now w) c in
        if cancel <? timer then (Done true, set_now cancel w1)
        else if timer <? cancel then (Done false, set_now timer w1)
        else (Done (env_coin (env w) (tick w)), set_now timer (set_tick (S (tick w)) w1))
    end.

(** strings.HasSuffix: s[len(s)-len(suffix):] == suffix when s is long enough. *)
Definition strings_HasSuffix (s suffix : string) : bool :=
  let ls := list_ascii_of_string s in
  let lx := list_ascii_of_string suffix in
  (length lx <=? length ls)%nat && bool_decide (drop (length ls - length lx) ls = lx).

(** ** utils.go *)

Module Utils.

(** readClose pairs a reader with the function its Close calls; an
    io.ReadCloser value holds a readClose or something else. *)
Inductive ReadCloser : Type :=
| readClose (Reader_ : Reader) (Closer : M (option error))
| otherReadCloser (Reader_ : Reader) (Closer : M (option error)).

Definition reader_of (r : ReadCloser) : Reader :=
  match r with
  | readClose rd _ => rd
  | otherReadCloser rd _ => rd
  end.

Definition Close (r : ReadCloser) : M (option error) :=
  match r with
  | readClose _ cl => cl
  | otherReadCloser _ cl => cl
  end.

Definition unGZip (ri : ReadCloser) : M (option ReadCloser * option error) :=
  ro <- gzip_NewReader (reader_of ri) ;;
  match ro with
  | inr err => exec Close ri ;; ret (None, Some err)
  | inl z =>
      ret (Some (readClose (R_gzip z (reader_of ri))
                   (err1 <- gzip_Close z ;;
                    err0 <- Close ri ;;
                    match err1 with
                    | Some e => ret (Some e)
                    | None => ret err0
                    end)),
           None)
  end.

Definition unBZip2 (r : ReadCloser) : M (option ReadCloser * option error) :=
  ret (Some (readClose (R_bzip2 (reader_of r)) (Close r)), None).

Definition code2Meaning : gmap Z string :=
  list_to_map
    [ (1, "Warning"); (2, "Fatal error"); (3, "Change identified");
      (7, "Command line error"); (8, "Not enough memory for operation");
      (255, "User stopped the process") ].

Definition lzmadecErr2Meaning (err : option error) : string :=
  match err with
  | None => ""
  | Some (ExitError status) =>
      match code2Meaning !! status with
      | Some m => m
      | None => "Error"
      end
  | Some _ => "Error"
  end.

Definition filename (r : ReadCloser) : M (string * option error) :=
  match r with
  | readClose (R_File f) _ =>
      exec File_Close (Some f) ;;
      ret (File_Name f, None)
  | readClose _ _ => ret ("", Some (New "Unable to cast to *os.File"))
  | otherReadCloser _ _ => ret ("", Some (New "Unable to cast to readClose"))
  end.

Definition un7Zip (ri : ReadCloser) : M (option ReadCloser * option error) :=
  let fail (e : error) : M (option ReadCloser * option error) :=
    exec Close ri ;; ret (None, Some e) in
  '(fname, err) <- filename ri ;;
  match err with
  | Some e => fail e
  | None =>
      archive <- lzmadec_NewArchive fname ;;
      match archive with
      | inr e =>
          fail (Wrap e (lzmadecErr2Meaning (Some e)
                          +:+ " while listing content of file " +:+ fname))
      | inl archive =>
          match Entries archive with
          | [entry] =>
              r <- Archive_GetFileReader archive (Path entry) ;;
              match r with
              | inr e =>
                  fail (Wrap e (lzmadecErr2Meaning (Some e)
                                  +:+ " while opening file " +:+ fname))
              | inl r =>
                  ret (Some (readClose r
                               (err1 <- Close ri ;;
                                err0 <- os_Remove fname ;;
                                match err1 with
                                | Some e => ret (Some e)
                                | None => ret err0
                                end)),
                       None)
              end
          | entries =>
              fail (New ("Error entries count differs from one - "
                           +:+ pretty (length entries) +:+ " - for file " +:+ fname))
          end
      end
  end.

End Utils.

(** ** The hub, its store and its iterator *)

Record fileInfo : Type := { URL : string; SHA1 : string }.

(** Wikidump represents a hub from which to request dump files. *)
Record Wikidump : Type := {
  file2Info : gmap string (list fileInfo);
  tmpDir : string;
  date : Z
}.

(** Modelled from the spec: the declaration of the type virtualFile is
    not among the sources.  It is the spooled file of the description, "an
    owned, closeable handle ... plus a release action", with the three
    fields [store] fills in this order: the reopened file, as a reader,
    the release function and the name of the file.  Its zero value has no
    reader and no release function. *)
Record virtualFile : Type := {
  vf_Reader : option Reader;
  vf_Closer : option (M (option error));
  vf_Name : string
}.

Definition virtualFile_zero : virtualFile :=
  {| vf_Reader := None; vf_Closer := None; vf_Name := "" |}.

(** The three decompressors [open] calls on a virtualFile.  Those of
    utils.go take and return an io.ReadCloser; the ones over virtualFile
    are an interface of the hub. *)
Record Decompressors : Type := {
  un7Zip : virtualFile -> M (virtualFile * option error);
  unBZip2 : virtualFile -> M (virtualFile * option error);
  unGZip : virtualFile -> M (virtualFile * option error)
}.

(** CheckFor checks for file existence in the wikidump.  The receiver is
    threaded through, so that what the call leaves of it can be stated. *)
Fixpoint CheckFor (w : Wikidump) (filenames : list string) : Wikidump * option error :=
  match filenames with
  | [] => (w, None)
  | filename :: rest =>
      match file2Info w !! filename with
      | None => (w, Some (New (filename +:+ " not found")))
      | Some _ => CheckFor w rest
      end
  end.

Definition Date (w : Wikidump) : Z := date w.

(** stream opens the HTTP response.  Whether the request goes through,
    or is interrupted by the context, is an answer of the outside. *)
Definition stream (ctx : Context) (fi : fileInfo) : M (option Body * option error) :=
  '(_, f) <- ask ;;                                       (* http.NewRequest *)
  match f with
  | Some e =>
      ret (None, Some (Wrap e ("Error: unable create a request with the following url: "
                                 +:+ URL fi)))
  | None =>
      '(k, f) <- ask ;;                                   (* http.DefaultClient.Do *)
      match f with
      | Some e =>
          ret (None, Some (Wrap e ("Error: unable do a request with the following url: "
                                     +:+ URL fi)))
      | None => w <- get ;; ret (Some (env_body (env w) k), None)
      end
  end.

(** io.Copy(io.MultiWriter(tempFile, hash), body): every chunk read is
    written to the file and then to the hash, whose state is the bytes it
    has been given; a Read of no bytes writes nothing. *)
Fixpoint io_Copy_MultiWriter (tempFile : option File) (hash : list byte)
    (reads : list (list byte)) (rerr : option error) : M (list byte * option error) :=
  match reads with
  | [] => ret (hash, rerr)
  | [] :: reads' => io_Copy_MultiWriter tempFile hash reads' rerr
  | chunk :: reads' =>
      e <- File_Write tempFile chunk ;;
      match e with
      | Some e => ret (hash, Some e)
      | None => io_Copy_MultiWriter tempFile (hash ++ chunk)%list reads' rerr
      end
  end.

(** checkFileSHA1 only prints warnings, and standard output is not part
    of the world; but its first warning reads the name of a nil file. *)
Definition checkFileSHA1 (fname SHA1 : string) : M unit :=
  '(f, err) <- os_Open fname ;;
  match err with
  | Some _ => exec File_Name_of f ;; ret tt
  | None =>
      exec File_ReadAll f ;;
      exec File_Close f ;;                                (* defer f.Close() *)
      ret tt
  end.

(** The closure fclose of [store], applied to the file its captured
    variable tempFile holds when it is called. *)
Definition fclose (tempFile : option File) : M (option error) :=
  c <- File_Close tempFile ;;
  n <- File_Name_of tempFile ;;
  let err1 := errors_Wrap c ("Error while closing reader of file " +:+ n) in
  n <- File_Name_of tempFile ;;
  r <- os_Remove n ;;
  n <- File_Name_of tempFile ;;
  let err0 := errors_Wrap r ("Error while removing file " +:+ n) in
  match err1 with
  | Some e => ret (Some e)
  | None => ret err0
  end.

(** The closure fail of [store]. *)
Definition store_fail (tempFile : option File) (e : error)
  : M (virtualFile * option error) :=
  exec fclose tempFile ;;
  ret (virtualFile_zero, Some e).

(** store downloads one file into a fresh temporary file of the spool
    directory.  The response body holds no state of the world, so its
    deferred Close is not shown. *)
Definition store (w : Wikidump) (ctx : Context) (fi : fileInfo)
  : M (virtualFile * option error) :=
  exec modify (log (EvStore (URL fi))) ;;
  '(tempFile, err) <- ioutil_TempFile (tmpDir w) (path_Base (URL fi)) ;;
  match err with
  | Some e =>
      ret (virtualFile_zero,
           Some (Wrap e ("Error: unable to create temporary file in " +:+ tmpDir w)))
  | None =>
  '(body, err) <- stream ctx fi ;;
  match body, err with
  | _, Some e => store_fail tempFile e
  | None, None => panic nil_dereference
  | Some body, None =>
  '(hash, err) <- io_Copy_MultiWriter tempFile [] (chunks body) (read_err body) ;;
  match err with
  | Some e =>
      store_fail tempFile
        (Wrap e ("Error: unable to copy to file the following url: " +:+ URL fi))
  | None =>
  if negb (String.eqb (Sprintf_x (sha1.Sum hash)) (SHA1 fi)) then
    store_fail tempFile
      (New ("Error: mismatched SHA1 for the file downloaded from the following url: "
              +:+ URL fi))
  else
  err <- File_Close tempFile ;;
  match err with
  | Some e =>
      n <- File_Name_of tempFile ;;
      store_fail tempFile (Wrap e ("Error: unable to close the following file: " +:+ n))
  | None =>
  n <- File_Name_of tempFile ;;
  exec checkFileSHA1 n (SHA1 fi) ;;
  n <- File_Name_of tempFile ;;
  '(tempFile, err) <- os_Open n ;;
  match err with
  | Some e =>
      n <- File_Name_of tempFile ;;
      store_fail tempFile (Wrap e ("Error: unable to open the following file: " +:+ n))
  | None =>
  n <- File_Name_of tempFile ;;
  ret ({| vf_Reader := R_File <$> tempFile;
          vf_Closer := Some (fclose tempFile);
          vf_Name := n |}, None)
  end end end end end.

(** The loop of stubbornStore, with [t] the wait of the attempt at hand
    and [r], [err] the named results. *)
Fixpoint stubbornStore_loop (fuel : nat) (w : Wikidump) (ctx : Context) (fi : fileInfo)
    (t : Z) (r : virtualFile) (err : option error) : M (virtualFile * option error) :=
  match fuel with
  | O => fun world => (OutOfFuel, world)
  | S fuel' =>
      if t <? time_Hour then
        '(r, err) <- store w ctx fi ;;
        match err with
        | None => ret (r, err)
        | Some _ =>
            cancelled <- select_Done_After ctx t ;;
            if cancelled : bool then
              ret (virtualFile_zero,
                   Some (Wrap (ctx_Err ctx) "Error: change in context state"))
            else stubbornStore_loop fuel' w ctx fi (int64 (t * 2)) r err
        end
      else ret (r, err)
  end.

Definition stubbornStore (fuel : nat) (w : Wikidump) (ctx : Context) (fi : fileInfo)
  : M (virtualFile * option error) :=
  stubbornStore_loop fuel w ctx fi time_Second virtualFile_zero None.

Definition open (d : Decompressors) (fuel : nat) (w : Wikidump) (ctx : Context)
    (fi : fileInfo) : M (virtualFile * option error) :=
  '(r, err) <- stubbornStore fuel w ctx fi ;;
  match err with
  | Some _ => ret (r, err)
  | None =>
      if strings_HasSuffix (URL fi) ".7z" then un7Zip d r
      else if strings_HasSuffix (URL fi) ".bz2" then unBZip2 d r
      else if strings_HasSuffix (URL fi) ".gz" then unGZip d r
      else ret (r, err)
  end.

(** The variables the function returned by Open captures. *)
Record Iterator : Type := { ffi : list fileInfo; err : option error }.

Definition Open (w : Wikidump) (filename : string) : Iterator :=
  {| ffi := default [] (file2Info w !! filename);
     err := snd (CheckFor w [filename]) |}.

(** One call of the function returned by Open: the reader (nil, or the
    virtualFile of [open]), the error, and the captured variables after
    the call. *)
Definition next (d : Decompressors) (fuel : nat) (w : Wikidump) (it : Iterator)
    (ctx : Context) : M (option virtualFile * option error * Iterator) :=
  match err it with
  | Some e => ret (None, Some e, it)
  | None =>
      match ffi it with
      | [] => ret (None, Some EOF, {| ffi := ffi it; err := Some EOF |})
      | fi :: rest =>
          '(r, e) <- open d fuel w ctx fi ;;
          ret (Some r, e, {| ffi := rest; err := e |})
      end
  end.

(** ** Vocabulary of the statements *)

(** What a step of the file system or of the network leaves untouched:
    the environment, the trace and the clock; interactions only add up. *)
Definition quiet (W W' : World) : Prop :=
  env W' = env W /\ trace W' = trace W /\ now W' = now W /\ (tick W <= tick W')%nat.

(** A computation all of whose runs are [quiet] and end, by a return or
    by a panic. *)
Definition Quiet {A} (c : M A) : Prop :=
  forall W r W', c W = (r, W') -> quiet W W' /\ r <> OutOfFuel.

(** The error of [store] for a digest that does not match. *)
Definition mismatched (fi : fileInfo) : error :=
  New ("Error: mismatched SHA1 for the file downloaded from the following url: " +:+ URL fi).

(** The errors [store] returns. *)
Inductive store_error (w : Wikidump) (fi : fileInfo) : error -> Prop :=
| se_create c :
    store_error w fi (Wrap c ("Error: unable to create temporary file in " +:+ tmpDir w))
| se_request c :
    store_error w fi
      (Wrap c ("Error: unable create a request with the following url: " +:+ URL fi))
| se_do c :
    store_error w fi
      (Wrap c ("Error: unable do a request with the following url: " +:+ URL fi))
| se_copy c :
    store_error w fi
      (Wrap c ("Error: unable to copy to file the following url: " +:+ URL fi))
| se_mismatch : store_error w fi (mismatched fi)
| se_close c nm :
    store_error w fi (Wrap c ("Error: unable to close the following file: " +:+ nm)).

(** The error of stubbornStore for a context that is done. *)
Definition context_changed (ctx : Context) : error :=
  Wrap (ctx_Err ctx) "Error: change in context state".

(** The variables of the loop of stubbornStore: the wait of the attempt
    at hand, the named results, and the world. *)
Definition loop_state : Type := Z * virtualFile * option error * World.

(** One turn of the loop that neither returns nor is cancelled: the
    attempt is made and fails, and the wait after it runs to its end. *)
Definition failed_attempt (w : Wikidump) (ctx : Context) (fi : fileInfo)
    (s : loop_state) : option loop_state :=
  let '(t, _, _, W) := s in
  if t <? time_Hour then
    match store w ctx fi W with
    | (Done (r, Some e), W1) =>
        match select_Done_After ctx t W1 with
        | (Done false, W2) => Some (int64 (t * 2), r, Some e, W2)
        | _ => None
        end
    | _ => None
    end
  else None.

Fixpoint failed_attempts (w : Wikidump) (ctx : Context) (fi : fileInfo)
    (n : nat) (s : loop_state) : option loop_state :=
  match n with
  | O => Some s
  | S n' =>
      match failed_attempt w ctx fi s with
      | Some s' => failed_attempts w ctx fi n' s'
      | None => None
      end
  end.

(** Number of entries into [store] a trace records. *)
Fixpoint attempts (tr : list Event) : nat :=
  match tr with
  | [] => 0
  | EvStore _ :: tr' => S (attempts tr')
  | EvTimer _ :: tr' => attempts tr'
  end.

(** The attempts [i], [i+1], ... ([k] of them) and the waits after them,
    in the order of time: the [j]-th wait is of 2^j seconds. *)
Definition backoff_schedule (url : string) (i k : nat) : list Event :=
  flat_map (fun j => [EvStore url; EvTimer (time_Second * 2 ^ Z.of_nat j)]) (seq i k).

(** Successive calls of the function returned by Open, one for each
    context of the list: their results in order, and the captured
    variables after the last one. *)
Fixpoint calls (d : Decompressors) (fuel : nat) (w : Wikidump) (it : Iterator)
    (ctxs : list Context) : M (list (option virtualFile * option error) * Iterator) :=
  match ctxs with
  | [] => ret ([], it)
  | ctx :: rest =>
      '(r, e, it') <- next d fuel w it ctx ;;
      '(rs, it'') <- calls d fuel w it' rest ;;
      ret ((r, e) :: rs, it'')
  end.

(** The spool handle of [store] as utils.go receives it: the readClose
    of the reopened file and of the release function. *)
Definition spooled (f : File) : Utils.ReadCloser :=
  Utils.readClose (R_File f) (fclose (Some f)).

(** The first error, as the composed Close functions choose it. *)
Definition first_error (err1 err0 : option error) : option error :=
  match err1 with
  | Some e => Some e
  | None => err0
  end.

(** The error of [Utils.un7Zip] for an archive that does not list
    exactly one entry. *)
Definition entries_differ (n : nat) (fname : string) : error :=
  New ("Error entries count differs from one - " +:+ pretty n
         +:+ " - for file " +:+ fname).

(** ** The decompressors of utils.go as an instance of the interface of
    the hub *)

(** A virtualFile seen as the readClose of its reader and of its release
    function, and back. *)
Definition as_ReadCloser (r : virtualFile) : Utils.ReadCloser :=
  Utils.readClose (default (R_other 0) (vf_Reader r)) (default (ret None) (vf_Closer r)).

Definition over_virtualFile
    (un : Utils.ReadCloser -> M (option Utils.ReadCloser * option error))
    (r : virtualFile) : M (virtualFile * option error) :=
  '(ro, err) <- un (as_ReadCloser r) ;;
  match ro with
  | Some rc =>
      ret ({| vf_Reader := Some (Utils.reader_of rc);
              vf_Closer := Some (Utils.Close rc);
              vf_Name := vf_Name r |}, err)
  | None => ret (virtualFile_zero, err)
  end.

Definition utils_decompressors : Decompressors := {|
  un7Zip := over_virtualFile Utils.un7Zip;
  unBZip2 := over_virtualFile Utils.unBZip2;
  unGZip := over_virtualFile Utils.unGZip
|}.

(** ** Sample inputs *)

(** An outside without failures, whose HTTP responses deliver the three
    bytes abc in two reads with an empty one in between, and whose
    archive tool lists nothing. *)
Definition calm : Env := {|
  env_fault := fun _ => None;
  env_suffix := fun k => pretty k;
  env_body := fun _ => {| chunks := [bytes_of_string "a"; []; bytes_of_string "bc"];
                          read_err := None |};
  env_entries := fun _ => [];
  env_coin := fun _ => false
|}.

(** The same outside, except that its tenth interaction, the reopening
    of the spooled file by [store], is refused. *)
Definition reopen_refused : Env := {|
  env_fault := fun k => if decide (k = 9%nat) then Some (Foreign "too many open files")
                        else None;
  env_suffix := env_suffix calm;
  env_body := env_body calm;
  env_entries := env_entries calm;
  env_coin := env_coin calm
|}.

(** The same outside, except that the network refuses every request: a
    failed attempt of [store] makes five interactions, the third of which
    is the request. *)
Definition offline : Env := {|
  env_fault := fun k => if decide (k `mod` 5 = 2)%nat then Some (Foreign "connection refused")
                        else None;
  env_suffix := env_suffix calm;
  env_body := env_body calm;
  env_entries := env_entries calm;
  env_coin := env_coin calm
|}.

(** An outside whose archive tool lists one entry, and one whose tool
    lists two. *)
Definition one_entry : Env := {|
  env_fault := env_fault calm;
  env_suffix := env_suffix calm;
  env_body := env_body calm;
  env_entries := fun _ => [ {| Path := "abc.xml" |} ];
  env_coin := env_coin calm
|}.
Definition two_entries : Env := {|
  env_fault := env_fault calm;
  env_suffix := env_suffix calm;
  env_body := env_body calm;
  env_entries := fun _ => [ {| Path := "abc.xml" |}; {| Path := "def.xml" |} ];
  env_coin := env_coin calm
|}.

(** The world at the start: nothing on disk, nothing open, the clock at
    zero. *)
Definition boot (e : Env) : World :=
  {| env := e; tick := 0; fs := ∅; live := ∅; now := 0; trace := [] |}.

(** Descriptors of the three bytes abc: with their digest, with the
    digest of the empty file, and with a URL without a known suffix. *)
Definition abc_gz : fileInfo :=
  {| URL := "http://dumps.example.org/abc.gz";
     SHA1 := "a9993e364706816aba3e25717850c26c9cd0d89d" |}.
Definition abc_bad : fileInfo :=
  {| URL := "http://dumps.example.org/abc.gz";
     SHA1 := "da39a3ee5e6b4b0d3255bfef95601890afd80709" |}.
Definition abc_xml : fileInfo :=
  {| URL := "http://dumps.example.org/abc.xml";
     SHA1 := "a9993e364706816aba3e25717850c26c9cd0d89d" |}.

(** A hub with one descriptor, and one whose catalog maps a name to no
    resource at all. *)
Definition hub : Wikidump :=
  {| file2Info := {[ "abc" := [abc_gz] ]}; tmpDir := "/tmp"; date := 0 |}.
Definition hub_empty_entry : Wikidump :=
  {| file2Info := {[ "none" := [] ]}; tmpDir := "/tmp"; date := 0 |}.

(** A context that is never done; one cancelled after two seconds, in
    the middle of the wait that follows the second attempt; and one
    cancelled fifty minutes after the start, in the middle of the wait
    that follows the twelfth attempt. *)
Definition background : Context := {| done_at := None; ctx_Err := Canceled |}.
Definition cancelled_early : Context :=
  {| done_at := Some (2 * time_Second); ctx_Err := Canceled |}.
Definition cancelled_late : Context :=
  {| done_at := Some (3000 * time_Second); ctx_Err := Canceled |}.

(** The world after a successful [store] of the sample descriptor in a
    given outside, and the file it has spooled. *)
Definition in_spool (e : Env) : World := snd (store hub background abc_gz (boot e)).
Definition abc_spooled : World := in_spool calm.
Definition abc_file : File := {| fd := 9; File_Name := "/tmp/abc.gz0" |}.

(** The error of the release function of [store] for a file that is
    already closed. *)
Definition already_closed (f : File) : error :=
  Wrap ErrClosed ("Error while closing reader of file " +:+ File_Name f).

(*DEFS-END*)

(** * Properties *)

(** ** The digest on the test vectors of the standard *)

Example sha1_abc :
  Sprintf_x (sha1.Sum (bytes_of_string "abc"))
  = "a9993e364706816aba3e25717850c26c9cd0d89d".
Proof. vm_compute. reflexivity. Qed.

Example sha1_empty :
  Sprintf_x (sha1.Sum []) = "da39a3ee5e6b4b0d3255bfef95601890afd80709".
Proof. vm_compute. reflexivity. Qed.

(** ** Reasoning about computations *)

Lemma bind_Done {A B} (c : M A) (k : A -> M B) (W W' : World) (b : B) :
  bind c k W = (Done b, W') ->
  exists a W1, c W = (Done a, W1) /\ k a W1 = (Done b, W').
Proof.
  unfold bind. destruct (c W) as [[a | msg |] W1]; intros H; try discriminate.
  exists a, W1. split; [reflexivity | exact H].
Qed.

Lemma bind_step {A B} (c : M A) (k : A -> M B) (W W1 : World) (a : A) :
  c W = (Done a, W1) -> bind c k W = k a W1.
Proof. unfold bind. intros ->. reflexivity. Qed.

Lemma bind_panic {A B} (c : M A) (k : A -> M B) (W W1 : World) (msg : string) :
  c W = (Panicked msg, W1) -> bind c k W = (Panicked msg, W1).
Proof. unfold bind. intros ->. reflexivity. Qed.

(** Unfolds the primitives of the world in the goal and the hypotheses and
    splits on every test they make. *)
Ltac prim :=
  unfold ioutil_TempFile, os_Open, os_Remove, File_Close, File_Name_of,
    File_Write, File_ReadAll, gzip_NewReader, gzip_Close, lzmadec_NewArchive,
    Archive_GetFileReader, bind, ask, get, modify, ret, panic in *;
  simpl in *; simplify_eq;
  repeat (case_match; simpl in *; simplify_eq);
  simpl in *.


Lemma quiet_refl W : quiet W W.
Proof. unfold quiet. auto. Qed.

Lemma quiet_trans W1 W2 W3 : quiet W1 W2 -> quiet W2 W3 -> quiet W1 W3.
Proof. unfold quiet. intros (-> & -> & -> & ?) (-> & -> & -> & ?). repeat split; lia. Qed.

Create HintDb world discriminated.
#[local] Hint Resolve quiet_refl : world.

(** ** The primitives of the world *)

Lemma ioutil_TempFile_spec dir prefix W r W' :
  ioutil_TempFile dir prefix W = (r, W') ->
  quiet W W' /\ tick W' = S (tick W) /\
  ((exists e, r = Done (None, Some e) /\ fs W' = fs W /\ live W' = live W) \/
   (exists nm, r = Done (Some {| fd := tick W; File_Name := nm |}, None) /\
               fs W !! nm = None /\
               fs W' = <[nm := []]> (fs W) /\ live W' = {[tick W]} ∪ live W)).
Proof.
  unfold quiet. destruct W; intros ?; prim; repeat split; eauto 8; lia.
Qed.

Lemma os_Open_spec nm W r W' :
  os_Open nm W = (r, W') ->
  quiet W W' /\ tick W' = S (tick W) /\ fs W' = fs W /\
  ((exists e, r = Done (None, Some e) /\ live W' = live W) \/
   (r = Done (Some {| fd := tick W; File_Name := nm |}, None) /\
    is_Some (fs W !! nm) /\ live W' = {[tick W]} ∪ live W)).
Proof.
  unfold quiet. destruct W; intros ?; prim; repeat split; eauto 8; lia.
Qed.

Lemma os_Remove_spec nm W r W' :
  os_Remove nm W = (r, W') ->
  quiet W W' /\ tick W' = S (tick W) /\ live W' = live W /\
  ((exists e, r = Done (Some e) /\ fs W' = fs W) \/
   (r = Done None /\ fs W' = delete nm (fs W))).
Proof.
  unfold quiet. destruct W; intros ?; prim; repeat split; eauto 8; lia.
Qed.

Lemma File_Close_spec f W r W' :
  File_Close (Some f) W = (r, W') ->
  quiet W W' /\ fs W' = fs W /\ live W' = live W ∖ {[fd f]} /\
  exists e, r = Done e.
Proof.
  unfold quiet. destruct W; intros ?; prim; repeat split; eauto; try lia; set_solver.
Qed.

Lemma File_Write_spec f bs W r W' :
  File_Write (Some f) bs W = (r, W') ->
  quiet W W' /\ live W' = live W /\
  ((exists e, r = Done (Some e) /\ fs W' = fs W) \/
   (r = Done None /\ fd f ∈ live W /\
    fs W' = alter (fun old => (old ++ bs)%list) (File_Name f) (fs W))).
Proof.
  unfold quiet. destruct W; intros ?; prim; repeat split; eauto 8; lia.
Qed.

Lemma File_ReadAll_spec f W r W' :
  File_ReadAll f W = (r, W') ->
  quiet W W' /\ fs W' = fs W /\ live W' = live W /\ exists x, r = Done x.
Proof.
  unfold quiet. destruct W, f; intros ?; prim; repeat split; eauto; lia.
Qed.

(** ** The store *)

Lemma stream_spec ctx fi W r W' :
  stream ctx fi W = (r, W') ->
  quiet W W' /\ fs W' = fs W /\ live W' = live W /\
  ((exists e msg, r = Done (None, Some (Wrap e msg)) /\
      (msg = "Error: unable create a request with the following url: " +:+ URL fi \/
       msg = "Error: unable do a request with the following url: " +:+ URL fi)) \/
   (r = Done (Some (env_body (env W) (S (tick W))), None) /\ tick W' = S (S (tick W)))).
Proof.
  unfold quiet, stream. destruct W; intros ?; prim; repeat split; eauto 10; lia.
Qed.
Lemma io_Copy_MultiWriter_spec f reads rerr : forall hash W r W',
  io_Copy_MultiWriter (Some f) hash reads rerr W = (r, W') ->
  quiet W W' /\ live W' = live W /\
  exists hash' err, r = Done (hash', err) /\
    (err = None ->
       rerr = None /\ hash' = (hash ++ concat reads)%list /\
       forall old, fs W !! File_Name f = Some old ->
                   fs W' !! File_Name f = Some (old ++ concat reads)%list).
Proof.
  induction reads as [| chunk reads IH]; intros hash W r W' H.
  - cbn in H. unfold ret in H. simplify_eq. split; [apply quiet_refl |].
    split; [done |]. eexists _, _. split; [done |]. intros ->.
    cbn [concat]. rewrite !app_nil_r. split; [done |]. split; [done |].
    intros old. rewrite app_nil_r. done.
  - destruct chunk as [| b chunk].
    + cbn in H. apply IH in H. exact H.
    + cbn [io_Copy_MultiWriter] in H.
      destruct (File_Write (Some f) (b :: chunk) W) as [o W1] eqn:Hw.
      apply File_Write_spec in Hw as Hs. destruct Hs as (Hq & Hl & Hcase).
      unfold bind in H. rewrite Hw in H.
      destruct Hcase as [(e & -> & Hfs) | (-> & Hin & Hfs)].
      * unfold ret in H. simplify_eq. repeat split; try apply Hq; auto.
        eexists _, _. split; [done |]. discriminate.
      * apply IH in H. destruct H as (Hq2 & Hl2 & h' & err & -> & Hok).
        split; [eapply quiet_trans; eauto |]. split; [congruence |].
        eexists _, _. split; [done |]. intros Herr.
        destruct (Hok Herr) as (-> & -> & Hfile). split; [done |].
        split; [by rewrite <- app_assoc |].
        intros old Hold. cbn [concat]. rewrite app_assoc. apply Hfile.
        rewrite Hfs, lookup_alter_eq, Hold. done.
Qed.

Lemma checkFileSHA1_spec fname sum W r W' :
  checkFileSHA1 fname sum W = (r, W') ->
  quiet W W' /\ fs W' = fs W /\ (r = Done tt \/ r = Panicked nil_dereference).
Proof.
  unfold checkFileSHA1. intros H.
  destruct (os_Open fname W) as [o W1] eqn:Ho.
  apply os_Open_spec in Ho as Hs. destruct Hs as (Hq & Ht & Hfs & Hcase).
  unfold bind at 1 in H. rewrite Ho in H.
  destruct Hcase as [(e & -> & Hl) | (-> & Hsome & Hl)].
  - cbn in H. simplify_eq. auto.
  - destruct (File_ReadAll (Some {| fd := tick W; File_Name := fname |}) W1) as [o2 W2] eqn:Hr.
    apply File_ReadAll_spec in Hr as Hs. destruct Hs as (Hq2 & Hfs2 & Hl2 & x & ->).
    unfold bind at 1 in H. rewrite Hr in H.
    destruct (File_Close (Some {| fd := tick W; File_Name := fname |}) W2) as [o3 W3] eqn:Hc.
    apply File_Close_spec in Hc as Hs. destruct Hs as (Hq3 & Hfs3 & Hl3 & e & ->).
    unfold bind in H. rewrite Hc in H. unfold ret in H. simplify_eq.
    split; [eauto using quiet_trans |]. split; [congruence | auto].
Qed.

Lemma fclose_spec f W r W' :
  fclose (Some f) W = (r, W') ->
  quiet W W' /\ live W' = live W ∖ {[fd f]} /\
  exists e, r = Done e /\
    ((e <> None /\ fs W' = fs W) \/ fs W' = delete (File_Name f) (fs W)).
Proof.
  unfold fclose. intros H.
  destruct (File_Close (Some f) W) as [o W1] eqn:Hc.
  apply File_Close_spec in Hc as Hs. destruct Hs as (Hq & Hfs & Hl & c & ->).
  unfold bind at 1 in H. rewrite Hc in H. cbn [File_Name_of] in H.
  unfold bind at 1, ret at 1 in H. unfold bind at 1, ret at 1 in H.
  destruct (os_Remove (File_Name f) W1) as [o2 W2] eqn:Hr.
  apply os_Remove_spec in Hr as Hs. destruct Hs as (Hq2 & Ht2 & Hl2 & Hcase).
  unfold bind at 1 in H. rewrite Hr in H.
  destruct Hcase as [(e & -> & Hfs2) | (-> & Hfs2)];
    unfold bind, ret in H; destruct c; cbn in H; simplify_eq;
    (split; [eauto using quiet_trans |]); (split; [congruence |]);
    eexists; (split; [done |]).
  all: try (left; split; [done | congruence]).
  all: right; congruence.
Qed.

Lemma store_fail_spec f e W r W' :
  store_fail (Some f) e W = (r, W') ->
  quiet W W' /\ live W' = live W ∖ {[fd f]} /\ r = Done (virtualFile_zero, Some e).
Proof.
  unfold store_fail. intros H.
  destruct (fclose (Some f) W) as [o W1] eqn:Hc.
  apply fclose_spec in Hc as Hs. destruct Hs as (Hq & Hl & x & -> & _).
  unfold bind in H. rewrite Hc in H. unfold ret in H. simplify_eq. auto.
Qed.

Lemma store_fail_not_ok f e W vf W' :
  store_fail (Some f) e W = (Done (vf, None), W') -> False.
Proof. intros H. apply store_fail_spec in H as (_ & _ & ?). discriminate. Qed.

Lemma store_success w ctx fi W vf W' :
  store w ctx fi W = (Done (vf, None), W') ->
  exists f data,
    vf = {| vf_Reader := Some (R_File f); vf_Closer := Some (fclose (Some f));
            vf_Name := File_Name f |} /\
    fd f ∈ live W' /\
    fs W' !! File_Name f = Some data /\
    Sprintf_x (sha1.Sum data) = SHA1 fi /\
    read_err (env_body (env W) (tick W + 2)%nat) = None /\
    data = concat (chunks (env_body (env W) (tick W + 2)%nat)).
Proof.
  unfold store. intros H.
  apply bind_Done in H as ([] & W0 & H0 & H). unfold modify in H0. simplify_eq.
  apply bind_Done in H as ([tempFile err] & W1 & H1 & H).
  apply ioutil_TempFile_spec in H1 as (Hq1 & Ht1 & [(e & ? & _) | (nm & ? & Hfresh & Hfs1 & Hl1)]);
    simplify_eq.
  cbn [log tick fs live env] in *. cbv beta iota in H.
  apply bind_Done in H as ([body err] & W2 & H2 & H).
  apply stream_spec in H2 as (Hq2 & Hfs2 & Hl2 & [(e & msg & ? & _) | (? & Ht2)]); simplify_eq;
    cbv beta iota in H; [by apply store_fail_not_ok in H |].
  apply bind_Done in H as ([hash err] & W3 & H3 & H).
  apply io_Copy_MultiWriter_spec in H3 as (Hq3 & Hl3 & hash' & err' & ? & Hok); simplify_eq.
  destruct err' as [e |]; [by apply store_fail_not_ok in H |].
  destruct (Hok eq_refl) as (Hrerr & -> & Hfile). clear Hok. cbn [app] in *.
  destruct (String.eqb _ _) eqn:Hsum; cbn [negb] in H; cbv beta iota in H;
    [| by apply store_fail_not_ok in H].
  apply String.eqb_eq in Hsum.
  apply bind_Done in H as (cerr & W4 & H4 & H).
  apply File_Close_spec in H4 as (Hq4 & Hfs4 & Hl4 & _).
  cbn [File_Name_of] in H. 
  destruct cerr as [e |].
  { unfold bind at 1, ret at 1 in H. by apply store_fail_not_ok in H. }
  unfold bind at 1, ret at 1 in H. cbn [File_Name] in H.
  apply bind_Done in H as ([] & W5 & H5 & H).
  apply checkFileSHA1_spec in H5 as (Hq5 & Hfs5 & _).
  unfold bind at 1, ret at 1 in H.
  apply bind_Done in H as ([tempFile err] & W6 & H6 & H).
  apply os_Open_spec in H6 as (Hq6 & Ht6 & Hfs6 & [(e & ? & _) | (? & Hsome & Hl6)]); simplify_eq.
  cbn in H. unfold bind, ret in H. simplify_eq.
  assert (Hb : env_body (env W1) (S (tick W1)) = env_body (env W) (tick W + 2)%nat).
  { destruct Hq1 as (-> & _). cbn [log env]. f_equal. lia. }
  rewrite Hb in *.
  exists {| fd := tick W5; File_Name := nm |},
    (concat (chunks (env_body (env W) (tick W + 2)%nat))).
  cbn [fd File_Name]. split; [reflexivity |].
  split; [rewrite Hl6; set_solver |].
  split; [| done].
  rewrite Hfs6, Hfs5, Hfs4. apply (Hfile []).
  rewrite Hfs2, Hfs1. apply lookup_insert_eq.
Qed.

Lemma store_fail_total f e W :
  exists W', store_fail (Some f) e W = (Done (virtualFile_zero, Some e), W') /\
             quiet W W' /\ live W' = live W ∖ {[fd f]}.
Proof.
  destruct (store_fail (Some f) e W) as [o W'] eqn:H.
  apply store_fail_spec in H as Hs. destruct Hs as (? & ? & ->). eauto.
Qed.

Lemma store_mismatch w ctx fi W f W1 body W2 hash W3 :
  ioutil_TempFile (tmpDir w) (path_Base (URL fi)) (log (EvStore (URL fi)) W)
    = (Done (Some f, None), W1) ->
  stream ctx fi W1 = (Done (Some body, None), W2) ->
  io_Copy_MultiWriter (Some f) [] (chunks body) (read_err body) W2
    = (Done (hash, None), W3) ->
  Sprintf_x (sha1.Sum hash) <> SHA1 fi ->
  exists W', store w ctx fi W = (Done (virtualFile_zero, Some (mismatched fi)), W').
Proof.
  intros H1 H2 H3 Hne. unfold store.
  rewrite (bind_step _ _ W (log (EvStore (URL fi)) W) tt) by reflexivity.
  rewrite (bind_step _ _ _ _ _ H1). cbv beta iota.
  rewrite (bind_step _ _ _ _ _ H2). cbv beta iota.
  rewrite (bind_step _ _ _ _ _ H3). cbv beta iota.
  apply String.eqb_neq in Hne. rewrite Hne. cbn [negb].
  destruct (store_fail_total f (mismatched fi) W3) as (W' & HW & _).
  exists W'. exact HW.
Qed.

(** C1: [store] hands back a spooled file only if the hex-encoded SHA-1
    digest of the whole downloaded byte stream equals the digest of the
    descriptor: the file returned is open, and its content on disk is the
    concatenation of the chunks of the response body, read to a clean
    end, whose digest matches.  The digest is taken over exactly the bytes
    written to the temporary file: when the copy ends well the hashed
    bytes are the chunks of the body and are the content of the file.  A
    digest that does not match makes the attempt fail with the mismatch
    error. *)
Theorem store_verifies_digest w ctx fi W :
  (forall vf W', store w ctx fi W = (Done (vf, None), W') ->
     exists f data,
       vf = {| vf_Reader := Some (R_File f); vf_Closer := Some (fclose (Some f));
               vf_Name := File_Name f |} /\
       fd f ∈ live W' /\
       fs W' !! File_Name f = Some data /\
       Sprintf_x (sha1.Sum data) = SHA1 fi /\
       read_err (env_body (env W) (tick W + 2)%nat) = None /\
       data = concat (chunks (env_body (env W) (tick W + 2)%nat)))
  /\
  (forall f W1 body W2 hash W3,
     ioutil_TempFile (tmpDir w) (path_Base (URL fi)) (log (EvStore (URL fi)) W)
       = (Done (Some f, None), W1) ->
     stream ctx fi W1 = (Done (Some body, None), W2) ->
     io_Copy_MultiWriter (Some f) [] (chunks body) (read_err body) W2
       = (Done (hash, None), W3) ->
     hash = concat (chunks body) /\
     fs W3 !! File_Name f = Some hash /\
     (Sprintf_x (sha1.Sum hash) <> SHA1 fi ->
      exists W', store w ctx fi W
                 = (Done (virtualFile_zero, Some (mismatched fi)), W'))).
Proof.
  split; [intros vf W'; apply store_success |].
  intros f W1 body W2 hash W3 H1 H2 H3.
  apply io_Copy_MultiWriter_spec in H3 as Hs.
  destruct Hs as (_ & _ & h & err & Heq & Hok). simplify_eq.
  destruct (Hok eq_refl) as (_ & Hh & Hfile). cbn [app] in Hh. split; [exact Hh |].
  split; [| intros Hne; eapply store_mismatch; eauto].
  apply ioutil_TempFile_spec in H1 as Hs.
  destruct Hs as (_ & _ & [(e & ? & _) | (nm & ? & _ & Hfs1 & _)]); simplify_eq.
  apply stream_spec in H2 as Hs. destruct Hs as (_ & Hfs2 & _).
  cbn [File_Name] in *. rewrite (Hfile []); [done |].
  rewrite Hfs2, Hfs1. apply lookup_insert_eq.
Qed.

Lemma store_verifies_digest_witness :
  (exists vf W' data,
     store hub background abc_gz (boot calm) = (Done (vf, None), W') /\
     fs W' !! vf_Name vf = Some data /\
     Sprintf_x (sha1.Sum data) = SHA1 abc_gz) /\
  (exists W', store hub background abc_bad (boot calm)
              = (Done (virtualFile_zero, Some (mismatched abc_bad)), W')).
Proof.
  split.
  - destruct (store hub background abc_gz (boot calm)) as [o W'] eqn:H.
    assert (Ho : exists vf, o = Done (vf, None)).
    { apply (f_equal fst) in H. vm_compute in H. subst o. eauto. }
    destruct Ho as (vf & ->).
    destruct (proj1 (store_verifies_digest hub background abc_gz (boot calm)) vf W' H)
      as (f & data & -> & _ & Hfs & Hsum & _).
    eexists _, W', data. split; [reflexivity |]. split; [exact Hfs | exact Hsum].
  - edestruct (proj2 (store_verifies_digest hub background abc_bad (boot calm)))
      as (_ & _ & Hm).
    + vm_compute. reflexivity.
    + vm_compute. reflexivity.
    + vm_compute. reflexivity.
    + apply Hm. vm_compute. discriminate.
Defined.

(** C2: at this input [store] does not do what the claim says.  Every
    step up to the closing of the write handle succeeds and the reopening
    of the file fails: os.Open hands back a nil file, which [store] has
    already assigned to tempFile when it asks for its name to build the
    error message.  The call panics, and the temporary file, with the
    whole download in it, stays in the spool directory. *)
Theorem store_reopen_failure_panics :
  let r := store hub background abc_gz (boot reopen_refused) in
  fst r = Panicked nil_dereference /\
  fs (snd r) !! "/tmp/abc.gz0" = Some (bytes_of_string "abc").
Proof. vm_compute. split; reflexivity. Qed.

(** The sibling failure paths of [store] do remove the file: a refused
    request and a digest that does not match leave the spool empty. *)
Example store_stream_failure_cleans :
  let r := store hub background abc_gz (boot offline) in
  fst r = Done (virtualFile_zero,
                Some (Wrap (Foreign "connection refused")
                        ("Error: unable do a request with the following url: "
                           +:+ URL abc_gz))) /\
  fs (snd r) = ∅.
Proof. vm_compute. split; reflexivity. Qed.

Example store_mismatch_cleans :
  let r := store hub background abc_bad (boot calm) in
  fst r = Done (virtualFile_zero, Some (mismatched abc_bad)) /\ fs (snd r) = ∅.
Proof. vm_compute. split; reflexivity. Qed.

(** The defect behind the evaluation above, for every run that reaches
    the reopening: when os.Open fails there, [store] panics in the world
    os.Open left, where the downloaded file is still on disk. *)
Lemma store_reopen_failure w ctx fi W f W1 body W2 hash W3 W4 W5 e W6 :
  ioutil_TempFile (tmpDir w) (path_Base (URL fi)) (log (EvStore (URL fi)) W)
    = (Done (Some f, None), W1) ->
  stream ctx fi W1 = (Done (Some body, None), W2) ->
  io_Copy_MultiWriter (Some f) [] (chunks body) (read_err body) W2
    = (Done (hash, None), W3) ->
  Sprintf_x (sha1.Sum hash) = SHA1 fi ->
  File_Close (Some f) W3 = (Done None, W4) ->
  checkFileSHA1 (File_Name f) (SHA1 fi) W4 = (Done tt, W5) ->
  os_Open (File_Name f) W5 = (Done (None, Some e), W6) ->
  store w ctx fi W = (Panicked nil_dereference, W6) /\
  fs W6 !! File_Name f = Some hash.
Proof.
  intros H1 H2 H3 Hsum H4 H5 H6. split.
  - unfold store.
    rewrite (bind_step _ _ W (log (EvStore (URL fi)) W) tt) by reflexivity.
    rewrite (bind_step _ _ _ _ _ H1). cbv beta iota.
    rewrite (bind_step _ _ _ _ _ H2). cbv beta iota.
    rewrite (bind_step _ _ _ _ _ H3). cbv beta iota.
    apply String.eqb_eq in Hsum. rewrite Hsum. cbn [negb].
    rewrite (bind_step _ _ _ _ _ H4). cbv beta iota.
    cbn [File_Name_of]. unfold bind at 1, ret at 1.
    rewrite (bind_step _ _ _ _ _ H5). unfold bind at 1, ret at 1.
    rewrite (bind_step _ _ _ _ _ H6). reflexivity.
  - apply io_Copy_MultiWriter_spec in H3 as (_ & _ & h & err & Heq & Hok). simplify_eq.
    destruct (Hok eq_refl) as (_ & Hh & Hfile). cbn [app] in Hh.
    apply ioutil_TempFile_spec in H1 as (_ & _ & [(? & ? & _) | (nm & ? & _ & Hfs1 & _)]);
      simplify_eq.
    apply stream_spec in H2 as (_ & Hfs2 & _).
    apply File_Close_spec in H4 as (_ & Hfs4 & _).
    apply checkFileSHA1_spec in H5 as (_ & Hfs5 & _).
    apply os_Open_spec in H6 as (_ & _ & Hfs6 & _).
    cbn [File_Name] in *. rewrite Hfs6, Hfs5, Hfs4. apply (Hfile []).
    rewrite Hfs2, Hfs1. apply lookup_insert_eq.
Qed.

(** ** The catalog *)

(** C10: [CheckFor] returns nil exactly when every filename is a key of
    the catalog; otherwise its error names the first filename, in the
    order of the arguments, that is absent; and the hub is left as it
    was. *)
Theorem CheckFor_first_absent (w : Wikidump) (filenames : list string) :
  fst (CheckFor w filenames) = w /\
  (snd (CheckFor w filenames) = None <->
   Forall (fun f => is_Some (file2Info w !! f)) filenames) /\
  (snd (CheckFor w filenames) = None \/
   exists pre f post,
     filenames = (pre ++ f :: post)%list /\
     Forall (fun g => is_Some (file2Info w !! g)) pre /\
     file2Info w !! f = None /\
     snd (CheckFor w filenames) = Some (New (f +:+ " not found"))).
Proof.
  induction filenames as [| f rest (IHw & IHnil & IHfirst)]; cbn [CheckFor].
  - split; [done |]. split; [| by left]. split; [constructor | done].
  - destruct (file2Info w !! f) as [ffi |] eqn:Hf.
    + split; [exact IHw |]. split.
      * rewrite IHnil. split; [intros H; constructor; eauto | by inversion 1].
      * destruct IHfirst as [Hnil | (pre & g & post & -> & Hpre & Hg & Hres)];
          [by left | right].
        exists (f :: pre), g, post. repeat split; eauto.
    + cbn [fst snd]. split; [done |]. split.
      * split; [done |]. inversion 1 as [| ? ? [x Hx] ?]. congruence.
      * right. exists [], f, rest. repeat split; eauto.
Qed.

Lemma store_failure w ctx fi W vf e W' :
  store w ctx fi W = (Done (vf, Some e), W') ->
  vf = virtualFile_zero /\ store_error w fi e.
Proof.
  unfold store. intros H.
  apply bind_Done in H as ([] & W0 & H0 & H). unfold modify in H0. simplify_eq.
  apply bind_Done in H as ([tempFile err] & W1 & H1 & H).
  apply ioutil_TempFile_spec in H1 as (_ & _ & [(c & ? & _) | (nm & ? & _)]);
    simplify_eq; cbv beta iota in H.
  { unfold ret in H. simplify_eq. split; [done | constructor]. }
  apply bind_Done in H as ([body err] & W2 & H2 & H).
  apply stream_spec in H2 as (_ & _ & _ & [(c & msg & ? & Hmsg) | (? & _)]); simplify_eq;
    cbv beta iota in H.
  { apply store_fail_spec in H as (_ & _ & ?). simplify_eq.
    split; [done |]. destruct Hmsg as [-> | ->]; constructor. }
  apply bind_Done in H as ([hash err] & W3 & H3 & H).
  apply io_Copy_MultiWriter_spec in H3 as (_ & _ & hash' & err' & ? & _); simplify_eq.
  destruct err' as [c |].
  { apply store_fail_spec in H as (_ & _ & ?). simplify_eq. split; [done | constructor]. }
  destruct (String.eqb _ _) eqn:Hsum; cbn [negb] in H; cbv beta iota in H.
  2:{ apply store_fail_spec in H as (_ & _ & ?). simplify_eq. split; [done | constructor]. }
  apply bind_Done in H as (cerr & W4 & H4 & H).
  cbn [File_Name_of] in H.
  destruct cerr as [c |].
  { unfold bind at 1, ret at 1 in H. apply store_fail_spec in H as (_ & _ & ?).
    simplify_eq. split; [done | constructor]. }
  unfold bind at 1, ret at 1 in H. cbn [File_Name] in H.
  apply bind_Done in H as ([] & W5 & H5 & H).
  unfold bind at 1, ret at 1 in H.
  apply bind_Done in H as ([tempFile err] & W6 & H6 & H).
  apply os_Open_spec in H6 as (_ & _ & _ & [(c & ? & _) | (? & _)]); simplify_eq.
Qed.

Lemma store_error_not_context w fi e ctx :
  store_error w fi e -> e <> context_changed ctx.
Proof.
  unfold context_changed, mismatched.
  destruct 1; cbn; intros H;
    first [discriminate H | injection H; intros; discriminate].
Qed.

(** ** What the store leaves of the trace and of the clock *)

Lemma Quiet_ret {A} (a : A) : Quiet (ret a).
Proof. intros W r W' H. unfold ret in H. simplify_eq. split; [apply quiet_refl | done]. Qed.

Lemma Quiet_panic {A} msg : Quiet (@panic A msg).
Proof. intros W r W' H. unfold panic in H. simplify_eq. split; [apply quiet_refl | done]. Qed.

Lemma Quiet_bind {A B} (c : M A) (k : A -> M B) :
  Quiet c -> (forall a, Quiet (k a)) -> Quiet (bind c k).
Proof.
  intros Hc Hk W r W' H. unfold bind in H.
  destruct (c W) as [[a | msg |] W1] eqn:Hcw.
  - destruct (Hc _ _ _ Hcw) as (Hq1 & _). destruct (Hk _ _ _ _ H) as (Hq2 & Hr).
    split; [eapply quiet_trans; eauto | exact Hr].
  - simplify_eq. split; [apply (Hc _ _ _ Hcw) | discriminate].
  - destruct (Hc _ _ _ Hcw) as (_ & Habs). by destruct Habs.
Qed.

Ltac quiet_prim :=
  let H := fresh in
  intros [] ? ? H; unfold quiet; prim; repeat split; first [lia | discriminate].

Lemma Quiet_TempFile dir prefix : Quiet (ioutil_TempFile dir prefix).
Proof. quiet_prim. Qed.
Lemma Quiet_Open nm : Quiet (os_Open nm).
Proof. quiet_prim. Qed.
Lemma Quiet_Remove nm : Quiet (os_Remove nm).
Proof. quiet_prim. Qed.
Lemma Quiet_Close f : Quiet (File_Close f).
Proof. destruct f; quiet_prim. Qed.
Lemma Quiet_Name f : Quiet (File_Name_of f).
Proof. destruct f; quiet_prim. Qed.
Lemma Quiet_Write f bs : Quiet (File_Write f bs).
Proof. destruct f; quiet_prim. Qed.
Lemma Quiet_ReadAll f : Quiet (File_ReadAll f).
Proof. destruct f; quiet_prim. Qed.
Lemma Quiet_stream ctx fi : Quiet (stream ctx fi).
Proof. unfold stream. quiet_prim. Qed.

#[local] Hint Resolve Quiet_ret Quiet_panic Quiet_TempFile Quiet_Open Quiet_Remove
  Quiet_Close Quiet_Name Quiet_Write Quiet_ReadAll Quiet_stream : world.

(** Splits a computation along its binds and its tests. *)
Ltac quiet_steps :=
  repeat first
    [ solve [auto with world]
    | apply Quiet_bind; [| intros ?]
    | match goal with
      | |- Quiet (match ?x with _ => _ end) => destruct x
      end ].

Lemma Quiet_Copy f reads rerr : forall hash, Quiet (io_Copy_MultiWriter f hash reads rerr).
Proof.
  induction reads as [| [| b chunk] reads IH]; intros hash; cbn [io_Copy_MultiWriter];
    quiet_steps.
Qed.

Lemma Quiet_checkFileSHA1 fname sum : Quiet (checkFileSHA1 fname sum).
Proof. unfold checkFileSHA1. quiet_steps. Qed.

Lemma Quiet_fclose f : Quiet (fclose f).
Proof. unfold fclose. quiet_steps. Qed.

#[local] Hint Resolve Quiet_Copy Quiet_checkFileSHA1 Quiet_fclose : world.

Lemma Quiet_store_fail f e : Quiet (store_fail f e).
Proof. unfold store_fail. quiet_steps. Qed.

#[local] Hint Resolve Quiet_store_fail : world.

(** Whatever its outcome, a call of [store] adds its own entry to the
    trace and nothing else, and takes no time. *)
Lemma store_trace w ctx fi W r W' :
  store w ctx fi W = (r, W') ->
  env W' = env W /\ trace W' = EvStore (URL fi) :: trace W /\ now W' = now W /\
  r <> OutOfFuel.
Proof.
  unfold store. intros H. unfold bind at 1, modify at 1 in H.
  match type of H with ?c _ = _ => assert (Hq : Quiet c) by quiet_steps end.
  apply Hq in H as ((He & Ht & Hn & _) & Hr). auto.
Qed.

(** ** The retrying fetcher *)

Lemma select_Done_After_spec ctx t W :
  exists b W', select_Done_After ctx t W = (Done b, W') /\
    env W' = env W /\ trace W' = EvTimer t :: trace W /\ fs W' = fs W /\
    live W' = live W.
Proof.
  unfold select_Done_After. destruct (done_at ctx) as [c |]; repeat case_match;
    eexists _, _; (split; [reflexivity |]); done.
Qed.

Lemma int64_small z : - 2 ^ 63 <= z < 2 ^ 63 -> int64 z = z.
Proof. intros H. unfold int64. rewrite Z.mod_small by lia. lia. Qed.

Lemma backoff_double (i : nat) :
  (i < 12)%nat ->
  time_Second * 2 ^ Z.of_nat i < time_Hour /\
  int64 (time_Second * 2 ^ Z.of_nat i * 2) = time_Second * 2 ^ Z.of_nat (S i).
Proof.
  intros Hi.
  assert (Hp : 0 < 2 ^ Z.of_nat i <= 2 ^ 11).
  { split; [apply Z.pow_pos_nonneg; lia | apply Z.pow_le_mono_r; lia]. }
  rewrite Nat2Z.inj_succ, Z.pow_succ_r by lia.
  unfold time_Hour, time_Second in *. split; [lia |].
  rewrite int64_small; lia.
Qed.

Lemma backoff_schedule_S url i k :
  backoff_schedule url i (S k)
  = EvStore url :: EvTimer (time_Second * 2 ^ Z.of_nat i) :: backoff_schedule url (S i) k.
Proof. reflexivity. Qed.

Lemma stubbornStore_loop_bounded w ctx fi :
  forall k i fuel r err W,
    (i + k = 12)%nat -> (k < fuel)%nat ->
    exists o W' n,
      stubbornStore_loop fuel w ctx fi (time_Second * 2 ^ Z.of_nat i) r err W = (o, W') /\
      stubbornStore_loop (S k) w ctx fi (time_Second * 2 ^ Z.of_nat i) r err W = (o, W') /\
      o <> OutOfFuel /\
      trace W' = (rev (take n (backoff_schedule (URL fi) i k)) ++ trace W)%list /\
      (attempts (trace W') <= attempts (trace W) + k)%nat.
Proof.
  induction k as [| k IH]; intros i fuel r err W Hik Hfuel;
    (destruct fuel as [| fuel]; [lia |]).
  - assert (i = 12%nat) as -> by lia. exists (Done (r, err)), W, 0%nat.
    cbn. repeat split; try done. lia.
  - destruct (backoff_double i) as (Hlt & Hdbl); [lia |].
    cbn [stubbornStore_loop]. apply Z.ltb_lt in Hlt. rewrite Hlt.
    unfold bind at 1 3.
    destruct (store w ctx fi W) as [o W1] eqn:Hs.
    apply store_trace in Hs as Ht. destruct Ht as (_ & Htr & _ & Hno).
    rewrite backoff_schedule_S.
    destruct o as [[r1 [e |]] | msg |].
    + destruct (select_Done_After_spec ctx (time_Second * 2 ^ Z.of_nat i) W1)
        as (b & W2 & Hsel & _ & Htr2 & _).
      unfold bind. rewrite Hsel. destruct b.
      * exists (Done (virtualFile_zero, Some (context_changed ctx))), W2, 2%nat.
        unfold ret. repeat split; try done.
        -- rewrite Htr2, Htr. reflexivity.
        -- rewrite Htr2, Htr. cbn. lia.
      * rewrite Hdbl.
        destruct (IH (S i) fuel r1 (Some e) W2) as (o & W' & n & H1 & H2 & Ho & Htr' & Hat);
          [lia | lia |].
        exists o, W', (S (S n)). repeat split; try done.
        -- rewrite Htr', Htr2, Htr. cbn [take rev]. rewrite <- !app_assoc. reflexivity.
        -- rewrite Htr2, Htr in Hat. cbn in Hat. lia.
    + exists (Done (r1, None)), W1, 1%nat. unfold ret. repeat split; try done.
      rewrite Htr. cbn. lia.
    + exists (Panicked msg), W1, 1%nat. repeat split; try done.
      rewrite Htr. cbn. lia.
    + done.
Qed.

Lemma failed_attempts_loop w ctx fi n :
  forall t r err W t' r' err' W' fuel,
    failed_attempts w ctx fi n (t, r, err, W) = Some (t', r', err', W') ->
    stubbornStore_loop (n + fuel) w ctx fi t r err W
    = stubbornStore_loop fuel w ctx fi t' r' err' W'.
Proof.
  induction n as [| n IH]; intros t r err W t' r' err' W' fuel H.
  - cbn in H. simplify_eq. reflexivity.
  - cbn [failed_attempts failed_attempt] in H. cbn [Nat.add stubbornStore_loop].
    destruct (t <? time_Hour); [| discriminate].
    unfold bind at 1.
    destruct (store w ctx fi W) as [[[r1 [e |]] | msg |] W1]; try discriminate.
    unfold bind.
    destruct (select_Done_After ctx t W1) as [[[] | msg |] W2]; try discriminate.
    apply IH. exact H.
Qed.

Lemma failed_attempts_wait w ctx fi n :
  forall i r err W t' r' err' W',
    (i + n <= 12)%nat ->
    failed_attempts w ctx fi n (time_Second * 2 ^ Z.of_nat i, r, err, W)
      = Some (t', r', err', W') ->
    t' = time_Second * 2 ^ Z.of_nat (i + n).
Proof.
  induction n as [| n IH]; intros i r err W t' r' err' W' Hi H.
  - cbn in H. simplify_eq. by rewrite Nat.add_0_r.
  - cbn [failed_attempts failed_attempt] in H.
    destruct (_ <? time_Hour); [| discriminate].
    destruct (store w ctx fi W) as [[[r1 [e |]] | msg |] W1]; try discriminate.
    destruct (select_Done_After ctx _ W1) as [[[] | msg |] W2]; try discriminate.
    destruct (backoff_double i) as (_ & Hdbl); [lia |]. rewrite Hdbl in H.
    apply IH in H; [| lia]. rewrite H. f_equal. f_equal. lia.
Qed.

(** C3, as amended: for every descriptor and context, stubbornStore ends
    after at most 12 calls of [store]: with fuel for 13 turns the loop
    never runs out (its result is the one 13 turns give), and what it
    adds to the trace is a prefix of the schedule attempt, wait of 1
    second, attempt, wait of 2 seconds, ... whose waits double up to 2048
    seconds, the last one below an hour.  If all twelve attempts fail
    and no wait is cut short by the context, the error of the last
    attempt is returned. *)
Theorem stubbornStore_bounded_backoff fuel w ctx fi W :
  (13 <= fuel)%nat ->
  (exists o W' n,
     stubbornStore fuel w ctx fi W = (o, W') /\
     stubbornStore 13 w ctx fi W = (o, W') /\
     o <> OutOfFuel /\
     trace W' = (rev (take n (backoff_schedule (URL fi) 0 12)) ++ trace W)%list /\
     (attempts (trace W') <= attempts (trace W) + 12)%nat) /\
  (forall t r0 err0 W11 r e W12 W13,
     failed_attempts w ctx fi 11 (time_Second, virtualFile_zero, None, W)
       = Some (t, r0, err0, W11) ->
     store w ctx fi W11 = (Done (r, Some e), W12) ->
     select_Done_After ctx t W12 = (Done false, W13) ->
     stubbornStore fuel w ctx fi W = (Done (r, Some e), W13)).
Proof.
  intros Hfuel. split.
  - unfold stubbornStore.
    destruct (stubbornStore_loop_bounded w ctx fi 12 0 fuel virtualFile_zero None W)
      as (o & W' & n & H1 & H2 & Ho & Htr & Hat); [lia | lia |].
    change (time_Second * 2 ^ Z.of_nat 0) with time_Second in *.
    exists o, W', n. auto.
  - intros t r0 err0 W11 r e W12 W13 Hrun Hs Hsel.
    change time_Second with (time_Second * 2 ^ Z.of_nat 0) in Hrun.
    apply failed_attempts_wait in Hrun as Ht; [| lia]. subst t.
    change (time_Second * 2 ^ Z.of_nat 0) with time_Second in Hrun.
    unfold stubbornStore.
    replace fuel with (11 + S (S (fuel - 13)))%nat by lia.
    rewrite (failed_attempts_loop _ _ _ _ _ _ _ _ _ _ _ _ _ Hrun).
    cbn [stubbornStore_loop].
    destruct (backoff_double 11) as (Hlt & Hdbl); [lia |].
    apply Z.ltb_lt in Hlt. cbn [Nat.add] in *. rewrite Hlt.
    unfold bind at 1. rewrite Hs. unfold bind. rewrite Hsel. rewrite Hdbl.
    reflexivity.
Qed.

Lemma stubbornStore_bounded_backoff_witness :
  exists e W',
    stubbornStore 13 hub background abc_gz (boot offline)
    = (Done (virtualFile_zero, Some e), W') /\
    attempts (trace W') = 12%nat /\ now W' = 4095 * time_Second.
Proof.
  destruct (stubbornStore_bounded_backoff 13 hub background abc_gz (boot offline)
              (le_n 13)) as (_ & Hlast).
  eexists _, _. split.
  - eapply Hlast.
    + vm_compute. reflexivity.
    + vm_compute. reflexivity.
    + vm_compute. reflexivity.
  - vm_compute. split; reflexivity.
Defined.

(** C3 as it is stated fails: here all twelve attempts fail, each with
    the error of a refused request, and the context is cancelled during
    the wait that follows the twelfth; what stubbornStore returns is the
    error of the context, not the error of the last attempt. *)
Lemma stubbornStore_last_error_counterexample :
  ~ (forall fuel w ctx fi W t r0 err0 W11 r e W12,
       (13 <= fuel)%nat ->
       failed_attempts w ctx fi 11 (time_Second, virtualFile_zero, None, W)
         = Some (t, r0, err0, W11) ->
       store w ctx fi W11 = (Done (r, Some e), W12) ->
       exists W', stubbornStore fuel w ctx fi W = (Done (r, Some e), W')).
Proof.
  intros H.
  edestruct (H 13%nat hub cancelled_late abc_gz (boot offline)) as (W' & HW').
  - lia.
  - vm_compute. reflexivity.
  - vm_compute. reflexivity.
  - apply (f_equal fst) in HW'. vm_compute in HW'. discriminate.
Qed.

(** C7: when the context is done before the wait after a failed attempt
    has run to its end, stubbornStore returns at once: its result is the
    error of the context wrapped, which is not the error of the failed
    attempt; the clock stands at the instant the context was done (or at
    the start of the wait, if it was done before), short of the end of
    the wait; and nothing follows the timer in the trace, so no further
    attempt is made. *)
Theorem stubbornStore_cancelled_in_wait fuel w ctx fi W n t r0 err0 Wn r e W1 c :
  (13 <= fuel)%nat ->
  (n < 12)%nat ->
  failed_attempts w ctx fi n (time_Second, virtualFile_zero, None, W)
    = Some (t, r0, err0, Wn) ->
  store w ctx fi Wn = (Done (r, Some e), W1) ->
  done_at ctx = Some c ->
  c < now W1 + t ->
  exists W',
    stubbornStore fuel w ctx fi W
      = (Done (virtualFile_zero, Some (context_changed ctx)), W') /\
    context_changed ctx <> e /\
    now W' = Z.max (now W1) c /\
    now W' < now W1 + t /\
    trace W' = EvTimer t :: trace W1.
Proof.
  intros Hfuel Hn Hrun Hs Hdone Hc.
  change time_Second with (time_Second * 2 ^ Z.of_nat 0) in Hrun.
  apply failed_attempts_wait in Hrun as Ht; [| lia]. subst t.
  change (time_Second * 2 ^ Z.of_nat 0) with time_Second in Hrun.
  cbn [Nat.add] in *.
  assert (Hpos : 0 < time_Second * 2 ^ Z.of_nat n).
  { apply Z.mul_pos_pos; [done | apply Z.pow_pos_nonneg; lia]. }
  destruct (backoff_double n) as (Hlt & _); [lia |]. apply Z.ltb_lt in Hlt.
  set (t := time_Second * 2 ^ Z.of_nat n) in *.
  exists (set_now (Z.max (now W1) c) (log (EvTimer t) W1)).
  split; [| split; [| cbn; repeat split; lia]].
  - unfold stubbornStore.
    replace fuel with (n + S (fuel - S n))%nat by lia.
    rewrite (failed_attempts_loop _ _ _ _ _ _ _ _ _ _ _ _ _ Hrun).
    cbn [stubbornStore_loop]. rewrite Hlt.
    unfold bind at 1. rewrite Hs. unfold bind, select_Done_After. rewrite Hdone.
    assert ((Z.max (now W1) c <? Z.max (now W1) (now W1 + t)) = true) as ->
      by (apply Z.ltb_lt; lia).
    reflexivity.
  - apply store_failure in Hs as (_ & He). intros Heq.
    by apply (store_error_not_context _ _ _ ctx) in He.
Qed.

Lemma stubbornStore_cancelled_in_wait_witness :
  exists W',
    stubbornStore 13 hub cancelled_early abc_gz (boot offline)
      = (Done (virtualFile_zero, Some (context_changed cancelled_early)), W') /\
    now W' = 2 * time_Second /\ attempts (trace W') = 2%nat.
Proof.
  edestruct (stubbornStore_cancelled_in_wait 13 hub cancelled_early abc_gz (boot offline) 1)
    as (W' & Hres & _ & Hnow & _ & Htr).
  - lia.
  - lia.
  - vm_compute. reflexivity.
  - vm_compute. reflexivity.
  - reflexivity.
  - vm_compute. reflexivity.
  - exists W'. split; [exact Hres |]. split.
    + rewrite Hnow. vm_compute. reflexivity.
    + rewrite Htr. vm_compute. reflexivity.
Defined.

(** ** The decompression selector *)

Lemma strings_HasSuffix_spec s suffix :
  strings_HasSuffix s suffix = true ->
  exists p, list_ascii_of_string s = (p ++ list_ascii_of_string suffix)%list.
Proof.
  unfold strings_HasSuffix. intros H. apply andb_prop in H as (_ & H).
  apply bool_decide_eq_true in H.
  set (n := (length (list_ascii_of_string s) - length (list_ascii_of_string suffix))%nat) in *.
  exists (take n (list_ascii_of_string s)).
  rewrite <- H. symmetry. apply take_drop.
Qed.

Lemma suffixes_7z_bz2 s :
  strings_HasSuffix s ".7z" = true -> strings_HasSuffix s ".bz2" = true -> False.
Proof.
  intros H1 H2. apply strings_HasSuffix_spec in H1 as (p & H1).
  apply strings_HasSuffix_spec in H2 as (q & H2). rewrite H1 in H2.
  apply (f_equal (@rev ascii)) in H2. rewrite !rev_app_distr in H2. cbn in H2. discriminate.
Qed.

Lemma suffixes_7z_gz s :
  strings_HasSuffix s ".7z" = true -> strings_HasSuffix s ".gz" = true -> False.
Proof.
  intros H1 H2. apply strings_HasSuffix_spec in H1 as (p & H1).
  apply strings_HasSuffix_spec in H2 as (q & H2). rewrite H1 in H2.
  apply (f_equal (@rev ascii)) in H2. rewrite !rev_app_distr in H2. cbn in H2. discriminate.
Qed.

Lemma suffixes_bz2_gz s :
  strings_HasSuffix s ".bz2" = true -> strings_HasSuffix s ".gz" = true -> False.
Proof.
  intros H1 H2. apply strings_HasSuffix_spec in H1 as (p & H1).
  apply strings_HasSuffix_spec in H2 as (q & H2). rewrite H1 in H2.
  apply (f_equal (@rev ascii)) in H2. rewrite !rev_app_distr in H2. cbn in H2. discriminate.
Qed.

(** C5: after a successful stubbornStore, [open] chooses by the suffix
    of the URL alone: the archive reader for ".7z", the bzip2 decoder for
    ".bz2", the gzip decoder for ".gz", each applied to the spooled file
    in the world the store left; with none of the three suffixes the
    spooled file is returned as it is. *)
Theorem open_selects_by_suffix d fuel w ctx fi W r W1 :
  stubbornStore fuel w ctx fi W = (Done (r, None), W1) ->
  (strings_HasSuffix (URL fi) ".7z" = true ->
   open d fuel w ctx fi W = un7Zip d r W1) /\
  (strings_HasSuffix (URL fi) ".bz2" = true ->
   open d fuel w ctx fi W = unBZip2 d r W1) /\
  (strings_HasSuffix (URL fi) ".gz" = true ->
   open d fuel w ctx fi W = unGZip d r W1) /\
  (strings_HasSuffix (URL fi) ".7z" = false ->
   strings_HasSuffix (URL fi) ".bz2" = false ->
   strings_HasSuffix (URL fi) ".gz" = false ->
   open d fuel w ctx fi W = (Done (r, None), W1)).
Proof.
  intros Hs. unfold open, bind. rewrite Hs. repeat split.
  - intros ->. reflexivity.
  - intros H. destruct (strings_HasSuffix (URL fi) ".7z") eqn:H7.
    + destruct (suffixes_7z_bz2 _ H7 H).
    + by rewrite H.
  - intros H. destruct (strings_HasSuffix (URL fi) ".7z") eqn:H7.
    + destruct (suffixes_7z_gz _ H7 H).
    + destruct (strings_HasSuffix (URL fi) ".bz2") eqn:Hb.
      * destruct (suffixes_bz2_gz _ Hb H).
      * by rewrite H.
  - intros -> -> ->. reflexivity.
Qed.

Lemma open_selects_by_suffix_witness :
  (exists r W1,
     stubbornStore 13 hub background abc_gz (boot calm) = (Done (r, None), W1) /\
     open utils_decompressors 13 hub background abc_gz (boot calm)
     = unGZip utils_decompressors r W1) /\
  (exists r W1,
     open utils_decompressors 13 hub background abc_xml (boot calm)
     = (Done (r, None), W1) /\ vf_Name r = "/tmp/abc.xml0").
Proof.
  split.
  - destruct (stubbornStore 13 hub background abc_gz (boot calm)) as [o W1] eqn:H.
    assert (Ho : exists r, o = Done (r, None)).
    { apply (f_equal fst) in H. vm_compute in H. subst o. eauto. }
    destruct Ho as (r & ->). exists r, W1. split; [reflexivity |].
    apply (open_selects_by_suffix utils_decompressors 13 hub background abc_gz _ r W1 H).
    vm_compute. reflexivity.
  - destruct (stubbornStore 13 hub background abc_xml (boot calm)) as [o W1] eqn:H.
    assert (Ho : exists r, o = Done (r, None) /\ vf_Name r = "/tmp/abc.xml0").
    { apply (f_equal fst) in H. vm_compute in H. subst o. eauto. }
    destruct Ho as (r & -> & Hn). exists r, W1. split; [| exact Hn].
    apply (open_selects_by_suffix utils_decompressors 13 hub background abc_xml _ r W1 H);
      vm_compute; reflexivity.
Defined.

(** ** The iterator *)

Lemma next_error_state d fuel w it ctx W r e it' W' :
  next d fuel w it ctx W = (Done (r, e, it'), W') -> err it' = e.
Proof.
  unfold next. destruct (err it) as [e0 |] eqn:He0.
  - unfold ret. intros H. simplify_eq. exact He0.
  - destruct (ffi it) as [| fi rest].
    + unfold ret. intros H. simplify_eq. reflexivity.
    + intros H. apply bind_Done in H as ([r1 e1] & W1 & _ & H).
      unfold ret in H. simplify_eq. reflexivity.
Qed.

Lemma calls_failed d fuel w it e :
  err it = Some e ->
  forall ctxs W,
    calls d fuel w it ctxs W = (Done (map (fun _ => (None, Some e)) ctxs, it), W).
Proof.
  intros He. induction ctxs as [| ctx ctxs IH]; intros W; [reflexivity |].
  cbn [calls map]. unfold bind at 1, next. rewrite He. unfold ret at 1.
  unfold bind. rewrite IH. reflexivity.
Qed.

(** C4: once a call of the iterator has returned an error, every later
    call returns the same error and leaves the world as it finds it, so
    that nothing more is fetched; and for a filename absent from the
    catalog the calls return, from the first one on, the not-found error
    taken at construction. *)
Theorem iterator_sticky_error d fuel w :
  (forall it ctx W r e it' W',
     next d fuel w it ctx W = (Done (r, Some e, it'), W') ->
     forall ctxs W2,
       calls d fuel w it' ctxs W2
       = (Done (map (fun _ => (None, Some e)) ctxs, it'), W2)) /\
  (forall filename,
     file2Info w !! filename = None ->
     forall ctxs W,
       calls d fuel w (Open w filename) ctxs W
       = (Done (map (fun _ => (None, Some (New (filename +:+ " not found")))) ctxs,
                Open w filename), W)).
Proof.
  split.
  - intros it ctx W r e it' W' H. apply next_error_state in H.
    by apply calls_failed.
  - intros filename Hf. apply calls_failed. unfold Open. cbn. by rewrite Hf.
Qed.

Lemma iterator_sticky_error_witness :
  (exists r e it' W',
     next utils_decompressors 13 hub (Open hub "abc") cancelled_early (boot offline)
     = (Done (r, Some e, it'), W') /\
     calls utils_decompressors 13 hub it' [background; background] W'
     = (Done ([(None, Some e); (None, Some e)], it'), W')) /\
  calls utils_decompressors 13 hub (Open hub "missing") [background; cancelled_early]
    (boot calm)
  = (Done ([(None, Some (New "missing not found"));
            (None, Some (New "missing not found"))], Open hub "missing"), boot calm).
Proof.
  destruct (iterator_sticky_error utils_decompressors 13 hub) as (Hsticky & Hmissing).
  split.
  - destruct (next utils_decompressors 13 hub (Open hub "abc") cancelled_early
                (boot offline)) as [o W'] eqn:H.
    assert (Ho : exists r e it', o = Done (r, Some e, it')).
    { apply (f_equal fst) in H. vm_compute in H. subst o. eauto. }
    destruct Ho as (r & e & it' & ->). exists r, e, it', W'. split; [reflexivity |].
    apply (Hsticky _ _ _ _ _ _ _ H [background; background] W').
  - apply (Hmissing "missing"). vm_compute. reflexivity.
Defined.

Lemma calls_exhausted d fuel w it :
  ffi it = [] -> err it = None \/ err it = Some EOF ->
  forall ctxs W,
    exists it',
      calls d fuel w it ctxs W = (Done (map (fun _ => (None, Some EOF)) ctxs, it'), W).
Proof.
  intros Hffi Herr ctxs W. destruct ctxs as [| ctx ctxs]; [by exists it |].
  assert (Hfirst : exists it1, next d fuel w it ctx W = (Done (None, Some EOF, it1), W)
                               /\ err it1 = Some EOF).
  { unfold next. rewrite Hffi. destruct Herr as [-> | He]; [by eexists | ].
    rewrite He. by eexists. }
  destruct Hfirst as (it1 & Hn & He1). exists it1.
  cbn [calls map]. unfold bind at 1. rewrite Hn.
  unfold bind. rewrite (calls_failed d fuel w it1 EOF He1). reflexivity.
Qed.

(** C8, as amended: for an iterator over a name mapped to no resource,
    and likewise once the descriptors have all been consumed by calls
    none of which returned an error (each such call takes one descriptor
    and leaves no error behind), the next call and every later call
    returns io.EOF. *)
Theorem iterator_end_of_sequence d fuel w :
  (forall filename,
     file2Info w !! filename = Some [] ->
     forall ctxs W,
       exists it',
         calls d fuel w (Open w filename) ctxs W
         = (Done (map (fun _ => (None, Some EOF)) ctxs, it'), W)) /\
  (forall it,
     ffi it = [] -> err it = None ->
     forall ctxs W,
       exists it',
         calls d fuel w it ctxs W
         = (Done (map (fun _ => (None, Some EOF)) ctxs, it'), W)) /\
  (forall it ctx W r it' W',
     err it = None ->
     next d fuel w it ctx W = (Done (r, None, it'), W') ->
     err it' = None /\ exists fi, ffi it = fi :: ffi it').
Proof.
  split; [| split].
  - intros filename Hf. apply calls_exhausted; unfold Open; cbn; rewrite Hf; auto.
  - intros it Hffi Herr. apply calls_exhausted; auto.
  - intros it ctx W r it' W' Herr H. split; [by apply next_error_state in H |].
    unfold next in H. rewrite Herr in H. destruct (ffi it) as [| fi rest].
    + unfold ret in H. simplify_eq.
    + apply bind_Done in H as ([r1 e1] & W1 & _ & H). unfold ret in H. simplify_eq.
      by exists fi.
Qed.

Lemma iterator_end_of_sequence_witness :
  (exists it',
     calls utils_decompressors 13 hub_empty_entry (Open hub_empty_entry "none")
       [background; background] (boot calm)
     = (Done ([(None, Some EOF); (None, Some EOF)], it'), boot calm)) /\
  (exists r it1 W1 it',
     next utils_decompressors 13 hub (Open hub "abc") background (boot calm)
     = (Done (r, None, it1), W1) /\
     calls utils_decompressors 13 hub it1 [background; background] W1
     = (Done ([(None, Some EOF); (None, Some EOF)], it'), W1)).
Proof.
  destruct (iterator_end_of_sequence utils_decompressors 13 hub_empty_entry)
    as (Hnone & _).
  destruct (iterator_end_of_sequence utils_decompressors 13 hub) as (_ & Hend & Hpop).
  split.
  - apply (Hnone "none"). vm_compute. reflexivity.
  - destruct (next utils_decompressors 13 hub (Open hub "abc") background (boot calm))
      as [o W1] eqn:H.
    assert (Ho : exists r it1, o = Done (r, None, it1) /\ ffi it1 = []).
    { apply (f_equal fst) in H. vm_compute in H. subst o. eauto. }
    destruct Ho as (r & it1 & -> & Hffi). 
    destruct (Hpop (Open hub "abc") background (boot calm) r it1 W1) as (Herr & _);
      [vm_compute; reflexivity | exact H |].
    destruct (Hend it1 Hffi Herr [background; background] W1) as (it' & Hc).
    exists r, it1, W1, it'. split; [reflexivity | exact Hc].
Defined.

(** C8 as it is stated fails: the only descriptor of the name is
    consumed by a first call that fails (the network refuses the requests
    and the context is cancelled during a wait), and the next call
    returns that error again, not io.EOF. *)
Lemma iterator_end_of_sequence_counterexample :
  ~ (forall d fuel w it ctx W r e it' W',
       next d fuel w it ctx W = (Done (r, e, it'), W') ->
       ffi it' = [] ->
       forall ctx2 W2, exists it'',
         next d fuel w it' ctx2 W2 = (Done (None, Some EOF, it''), W2)).
Proof.
  intros H.
  destruct (next utils_decompressors 13 hub (Open hub "abc") cancelled_early
              (boot offline)) as [o W'] eqn:Hn.
  assert (Ho : exists r it', o = Done (r, Some (context_changed cancelled_early), it')
                             /\ ffi it' = []).
  { apply (f_equal fst) in Hn. vm_compute in Hn. subst o. eauto. }
  destruct Ho as (r & it' & -> & Hffi).
  destruct (H _ _ _ _ _ _ _ _ _ _ Hn Hffi background W') as (it'' & Hnext).
  apply next_error_state in Hn. unfold next in Hnext. rewrite Hn in Hnext.
  discriminate.
Qed.

(** ** The decompressors of utils.go *)

Lemma gzip_Close_spec z W :
  exists err1 W', gzip_Close z W = (Done err1, W') /\
    live W' = live W ∖ {[z]} /\ fs W' = fs W.
Proof. destruct W. eexists _, _. unfold gzip_Close. prim. done. Qed.

(** C9: the Close of the stream [unGZip] returns closes the gzip decoder
    and then, whatever the decoder answered, runs the Close of the
    underlying handle; it returns the error of the decoder when there is
    one and the error of the handle otherwise.  For the spool handle of
    [store] this Close always returns, and leaves both the decoder and
    the file descriptor closed. *)
Theorem unGZip_closes_both ri W z W1 :
  gzip_NewReader (Utils.reader_of ri) W = (Done (inl z), W1) ->
  exists ro,
    Utils.unGZip ri W = (Done (Some ro, None), W1) /\
    (forall Wc, exists err1 Wd,
       gzip_Close z Wc = (Done err1, Wd) /\
       (z ∉ live Wd) /\
       (forall err0 We,
          Utils.Close ri Wd = (Done err0, We) ->
          Utils.Close ro Wc = (Done (first_error err1 err0), We)) /\
       (forall msg We,
          Utils.Close ri Wd = (Panicked msg, We) ->
          Utils.Close ro Wc = (Panicked msg, We))) /\
    (forall f, ri = spooled f ->
       forall Wc, exists err We,
         Utils.Close ro Wc = (Done err, We) /\ (z ∉ live We) /\ (fd f ∉ live We)).
Proof.
  intros Hnew. unfold Utils.unGZip. rewrite (bind_step _ _ _ _ _ Hnew). cbv beta iota.
  eexists. split; [reflexivity |]. cbn [Utils.Close]. split.
  - intros Wc. destruct (gzip_Close_spec z Wc) as (err1 & Wd & Hc & Hl & _).
    exists err1, Wd. split; [exact Hc |]. split; [set_solver |]. split.
    + intros err0 We Hri. rewrite (bind_step _ _ _ _ _ Hc), (bind_step _ _ _ _ _ Hri).
      by destruct err1.
    + intros msg We Hri. rewrite (bind_step _ _ _ _ _ Hc). by apply bind_panic.
  - intros f -> Wc. destruct (gzip_Close_spec z Wc) as (err1 & Wd & Hc & Hl & _).
    cbn [Utils.Close spooled].
    destruct (fclose (Some f) Wd) as [o We] eqn:Hf.
    apply fclose_spec in Hf as Hs. destruct Hs as (_ & Hl2 & err0 & -> & _).
    exists (first_error err1 err0), We.
    rewrite (bind_step _ _ _ _ _ Hc), (bind_step _ _ _ _ _ Hf).
    split; [by destruct err1 |]. set_solver.
Qed.

Lemma unGZip_closes_both_witness :
  exists ro W1 err We,
    Utils.unGZip (spooled abc_file) abc_spooled = (Done (Some ro, None), W1) /\
    Utils.Close ro W1 = (Done err, We) /\
    (10%nat ∉ live We) /\ (fd abc_file ∉ live We).
Proof.
  edestruct (unGZip_closes_both (spooled abc_file) abc_spooled) as (ro & Hun & _ & Hspool).
  - vm_compute. reflexivity.
  - exists ro. eexists.
    edestruct (Hspool abc_file eq_refl) as (err & We & Hc & Hz & Hf).
    exists err, We. split; [exact Hun |]. split; [exact Hc |]. split; [exact Hz | exact Hf].
Defined.

Lemma os_Remove_gone nm W r W' :
  os_Remove nm W = (r, W') ->
  env_fault (env W) (tick W) = None ->
  fs W' !! nm = None.
Proof.
  destruct W. intros H Hf. prim; [apply lookup_delete_eq | done].
Qed.

Lemma os_Remove_total nm W : exists err W', os_Remove nm W = (Done err, W').
Proof.
  destruct (os_Remove nm W) as [o W'] eqn:H.
  apply os_Remove_spec in H as (_ & _ & _ & [(e & -> & _) | (-> & _)]); eauto.
Qed.

(** C6: given the readClose of a file, [Utils.un7Zip] takes the path of
    the archive from the file and closes it.  When the archive tool lists
    a number of entries other than one, it runs the Close of its input
    and fails with the error that tells the count.  When the tool lists
    one entry and opens it, the reader returned is that of the entry, and
    its Close runs the Close of the input and then removes the file of
    that path (which is gone afterwards unless the outside makes the
    removal fail), returning the first error. *)
Theorem un7Zip_single_entry f cl W :
  let ri := Utils.readClose (R_File f) cl in
  exists W0,
    Utils.filename ri W = (Done (File_Name f, None), W0) /\
    (fd f ∉ live W0) /\
    (forall a W1,
       lzmadec_NewArchive (File_Name f) W0 = (Done (inl a), W1) ->
       (length (Entries a) <> 1%nat ->
        forall err W',
          cl W1 = (Done err, W') ->
          Utils.un7Zip ri W
          = (Done (None, Some (entries_differ (length (Entries a)) (File_Name f))), W')) /\
       (forall entry r W2,
          Entries a = [entry] ->
          Archive_GetFileReader a (Path entry) W1 = (Done (inl r), W2) ->
          exists ro,
            Utils.un7Zip ri W = (Done (Some ro, None), W2) /\
            Utils.reader_of ro = r /\
            forall Wc err1 Wd,
              cl Wc = (Done err1, Wd) ->
              exists err0 We,
                os_Remove (File_Name f) Wd = (Done err0, We) /\
                Utils.Close ro Wc = (Done (first_error err1 err0), We) /\
                (env_fault (env Wd) (tick Wd) = None -> fs We !! File_Name f = None))).
Proof.
  intros ri.
  destruct (File_Close (Some f) W) as [o W0] eqn:Hc.
  apply File_Close_spec in Hc as Hs. destruct Hs as (_ & _ & Hl & e & ->).
  assert (Hname : Utils.filename ri W = (Done (File_Name f, None), W0)).
  { unfold ri, Utils.filename. by rewrite (bind_step _ _ _ _ _ Hc). }
  exists W0. split; [exact Hname |]. split; [set_solver |].
  intros a W1 Ha. unfold Utils.un7Zip.
  rewrite (bind_step _ _ _ _ _ Hname). cbv beta iota.
  rewrite (bind_step _ _ _ _ _ Ha). cbv beta iota. split.
  - intros Hlen err W' Hcl. cbn [Utils.Close ri].
    destruct (Entries a) as [| entry [| entry2 rest]] eqn:He; [| done |];
      by rewrite (bind_step _ _ _ _ _ Hcl).
  - intros entry r W2 -> Hr. rewrite (bind_step _ _ _ _ _ Hr). cbv beta iota.
    eexists. split; [reflexivity |]. split; [reflexivity |].
    intros Wc err1 Wd Hcl. cbn [Utils.Close ri].
    destruct (os_Remove_total (File_Name f) Wd) as (err0 & We & Hrm).
    exists err0, We. split; [exact Hrm |]. split.
    + rewrite (bind_step _ _ _ _ _ Hcl), (bind_step _ _ _ _ _ Hrm). by destruct err1.
    + intros Hf. by apply (os_Remove_gone _ _ _ _ Hrm).
Qed.

Lemma un7Zip_single_entry_witness :
  (exists W',
     Utils.un7Zip (spooled abc_file) (in_spool two_entries)
     = (Done (None, Some (entries_differ 2 "/tmp/abc.gz0")), W') /\ fs W' = ∅) /\
  (exists ro W2 err We,
     Utils.un7Zip (spooled abc_file) (in_spool one_entry) = (Done (Some ro, None), W2) /\
     Utils.reader_of ro = R_entry "/tmp/abc.gz0" "abc.xml" /\
     Utils.Close ro W2 = (Done err, We) /\
     fs We !! "/tmp/abc.gz0" = None).
Proof.
  split.
  - destruct (un7Zip_single_entry abc_file (fclose (Some abc_file)) (in_spool two_entries))
      as (W0 & Hname & _ & Hrest).
    assert (HW0 : W0 = snd (Utils.filename (spooled abc_file) (in_spool two_entries)))
      by (unfold spooled; by rewrite Hname).
    subst W0. clear Hname.
    edestruct Hrest as (Hfail & _); [vm_compute; reflexivity |].
    eexists. split.
    + eapply Hfail; [vm_compute; lia | vm_compute; reflexivity].
    + vm_compute. reflexivity.
  - destruct (un7Zip_single_entry abc_file (fclose (Some abc_file)) (in_spool one_entry))
      as (W0 & Hname & _ & Hrest).
    assert (HW0 : W0 = snd (Utils.filename (spooled abc_file) (in_spool one_entry)))
      by (unfold spooled; by rewrite Hname).
    subst W0. clear Hname.
    edestruct Hrest as (_ & Hone); [vm_compute; reflexivity |].
    edestruct Hone as (ro & Hun & Hrd & Hclose);
      [vm_compute; reflexivity | vm_compute; reflexivity |].
    edestruct (Hclose (snd (Utils.un7Zip (spooled abc_file) (in_spool one_entry))))
      as (err0 & We & Hrm & Hc & Hgone); [vm_compute; reflexivity |].
    exists ro. eexists. eexists. exists We.
    split; [exact Hun |]. split; [exact Hrd |]. split; [exact Hc |].
    apply Hgone. vm_compute. reflexivity.
Defined.

(** * Further properties of the code *)

(** ** What a failed store leaves behind *)

Lemma File_Write_frame f bs W r W' :
  File_Write (Some f) bs W = (r, W') ->
  delete (File_Name f) (fs W') = delete (File_Name f) (fs W).
Proof.
  intros H. apply File_Write_spec in H as (_ & _ & [(e & _ & ->) | (_ & _ & ->)]);
    [done | apply delete_alter_eq].
Qed.

Lemma io_Copy_MultiWriter_frame f reads rerr : forall hash W r W',
  io_Copy_MultiWriter (Some f) hash reads rerr W = (r, W') ->
  delete (File_Name f) (fs W') = delete (File_Name f) (fs W).
Proof.
  induction reads as [| [| b chunk] reads IH]; intros hash W r W' H;
    cbn [io_Copy_MultiWriter] in H.
  - unfold ret in H. by simplify_eq.
  - by apply IH in H.
  - unfold bind in H.
    destruct (File_Write (Some f) (b :: chunk) W) as [[[e |] | msg |] W1] eqn:Hw;
      apply File_Write_frame in Hw; unfold ret in H.
    + by simplify_eq.
    + apply IH in H. congruence.
    + by simplify_eq.
    + by simplify_eq.
Qed.

Lemma store_fail_exact f e W r W' :
  store_fail (Some f) e W = (r, W') ->
  r = Done (virtualFile_zero, Some e) /\
  exists Wb rr,
    quiet W Wb /\ fs Wb = fs W /\ live Wb = live W ∖ {[fd f]} /\
    os_Remove (File_Name f) Wb = (Done rr, W').
Proof.
  unfold store_fail, fclose. intros H.
  destruct (File_Close (Some f) W) as [o Wb] eqn:Hc.
  apply File_Close_spec in Hc as Hs. destruct Hs as (Hq & Hfs & Hl & c & ->).
  unfold bind at 1 2 in H. rewrite Hc in H. cbn [File_Name_of] in H.
  unfold bind at 1, ret at 1 in H. unfold bind at 1, ret at 1 in H.
  destruct (os_Remove_total (File_Name f) Wb) as (rr & W1 & Hr).
  unfold bind at 1 in H. rewrite Hr in H.
  unfold bind, ret in H. destruct c; cbn in H; simplify_eq; eauto 10.
Qed.

Lemma os_Remove_deletes nm W r W' :
  os_Remove nm W = (r, W') ->
  env_fault (env W) (tick W) = None ->
  fs W' = delete nm (fs W).
Proof.
  destruct W. intros H Hf. prim; [done |]. symmetry. by apply delete_id.
Qed.

(** The state a failed [store] ends in, when the removal of the
    temporary file, its last interaction, has not been refused. *)
Lemma store_fail_cleans f e W r W' (fs0 : gmap string (list byte)) (L : gset nat) W0 :
  store_fail (Some f) e W = (r, W') ->
  quiet W0 W ->
  fs0 !! File_Name f = None ->
  delete (File_Name f) (fs W) = delete (File_Name f) fs0 ->
  live W ⊆ {[fd f]} ∪ L ->
  r = Done (virtualFile_zero, Some e) /\
  live W' ⊆ L /\ (tick W0 < tick W')%nat /\
  (env_fault (env W0) (tick W' - 1) = None -> fs W' = fs0).
Proof.
  intros H Hq0 Hfresh Hdel Hlive.
  apply store_fail_exact in H as (-> & Wb & rr & Hq & Hfs & Hl & Hr).
  apply os_Remove_spec in Hr as Hs. destruct Hs as (Hq2 & Ht & Hl2 & _).
  pose proof (quiet_trans _ _ _ Hq0 Hq) as (He & _ & _ & Hle).
  split; [done |]. split; [set_solver |]. split; [lia |].
  intros Hok. replace (tick W' - 1)%nat with (tick Wb) in Hok by lia.
  rewrite <- He in Hok.
  rewrite (os_Remove_deletes _ _ _ _ Hr Hok), Hfs, Hdel. by apply delete_id.
Qed.

(** A call of [store] that returns an error returns no file with it,
    leaves no descriptor open that was not open before, and, unless the
    outside refuses its last interaction (the removal of the temporary
    file), leaves the spool directory as it found it. *)
Theorem store_failure_cleans w ctx fi W vf e W' :
  store w ctx fi W = (Done (vf, Some e), W') ->
  vf = virtualFile_zero /\
  store_error w fi e /\
  live W' ⊆ live W /\
  (tick W < tick W')%nat /\
  (env_fault (env W) (tick W' - 1) = None -> fs W' = fs W).
Proof.
  intros H. destruct (store_failure _ _ _ _ _ _ _ H) as (-> & Herr).
  split; [done |]. split; [exact Herr |]. clear Herr.
  unfold store in H.
  apply bind_Done in H as ([] & W0 & H0 & H). unfold modify in H0. simplify_eq.
  set (W0 := log (EvStore (URL fi)) W) in *.
  change (live W) with (live W0). change (tick W) with (tick W0).
  change (env W) with (env W0). change (fs W) with (fs W0).
  apply bind_Done in H as ([tempFile err] & W1 & H1 & H).
  apply ioutil_TempFile_spec in H1
    as (Hq1 & Ht1 & [(c & ? & Hfs1 & Hl1) | (nm & ? & Hfresh & Hfs1 & Hl1)]);
    simplify_eq; cbv beta iota in H.
  { unfold ret in H. simplify_eq. rewrite Hl1, Ht1, Hfs1.
    split; [done |]. split; [lia | done]. }
  set (f := {| fd := tick W0; File_Name := nm |}) in *.
  assert (Hfr : fs W0 !! File_Name f = None) by exact Hfresh.
  assert (Hd1 : delete (File_Name f) (fs W1) = delete (File_Name f) (fs W0)).
  { rewrite Hfs1. apply delete_insert_eq. }
  assert (Hlv1 : live W1 ⊆ {[fd f]} ∪ live W0) by (by rewrite Hl1).
  apply bind_Done in H as ([body err] & W2 & H2 & H).
  apply stream_spec in H2 as (Hq2 & Hfs2 & Hl2 & Hcase).
  assert (Hq02 : quiet W0 W2) by eauto using quiet_trans.
  assert (Hd2 : delete (File_Name f) (fs W2) = delete (File_Name f) (fs W0))
    by (rewrite Hfs2; exact Hd1).
  assert (Hlv2 : live W2 ⊆ {[fd f]} ∪ live W0) by (by rewrite Hl2).
  destruct Hcase as [(c & msg & ? & _) | (? & _)]; simplify_eq; cbv beta iota in H.
  { by destruct (store_fail_cleans _ _ _ _ _ _ _ _ H Hq02 Hfr Hd2 Hlv2) as (_ & ? & ? & ?). }
  apply bind_Done in H as ([hash err] & W3 & H3 & H).
  apply io_Copy_MultiWriter_frame in H3 as Hd3.
  apply io_Copy_MultiWriter_spec in H3 as (Hq3 & Hl3 & hash' & err' & ? & _); simplify_eq.
  assert (Hq03 : quiet W0 W3) by eauto using quiet_trans.
  assert (Hd03 : delete (File_Name f) (fs W3) = delete (File_Name f) (fs W0))
    by (etrans; [exact Hd3 | exact Hd2]).
  assert (Hlv3 : live W3 ⊆ {[fd f]} ∪ live W0) by (by rewrite Hl3).
  destruct err' as [c |].
  { by destruct (store_fail_cleans _ _ _ _ _ _ _ _ H Hq03 Hfr Hd03 Hlv3) as (_ & ? & ? & ?). }
  destruct (String.eqb _ _) eqn:Hsum; cbn [negb] in H; cbv beta iota in H.
  2:{ by destruct (store_fail_cleans _ _ _ _ _ _ _ _ H Hq03 Hfr Hd03 Hlv3)
        as (_ & ? & ? & ?). }
  apply bind_Done in H as (cerr & W4 & H4 & H).
  apply File_Close_spec in H4 as (Hq4 & Hfs4 & Hl4 & _).
  assert (Hq04 : quiet W0 W4) by eauto using quiet_trans.
  assert (Hd04 : delete (File_Name f) (fs W4) = delete (File_Name f) (fs W0))
    by (rewrite Hfs4; exact Hd03).
  assert (Hlv4 : live W4 ⊆ {[fd f]} ∪ live W0) by (rewrite Hl4; set_solver).
  cbn [File_Name_of] in H.
  destruct cerr as [c |].
  { unfold bind at 1, ret at 1 in H.
    by destruct (store_fail_cleans _ _ _ _ _ _ _ _ H Hq04 Hfr Hd04 Hlv4) as (_ & ? & ? & ?). }
  unfold bind at 1, ret at 1 in H.
  apply bind_Done in H as ([] & W5 & H5 & H).
  unfold bind at 1, ret at 1 in H.
  apply bind_Done in H as ([tempFile err] & W6 & H6 & H).
  apply os_Open_spec in H6 as (_ & _ & _ & [(c & ? & _) | (? & _)]); simplify_eq.
Qed.

Lemma store_failure_cleans_witness :
  exists vf e W',
    store hub background abc_bad (boot calm) = (Done (vf, Some e), W') /\
    fs W' = ∅ /\ live W' ⊆ ∅.
Proof.
  destruct (store hub background abc_bad (boot calm)) as [o W'] eqn:H.
  assert (Ho : exists vf e, o = Done (vf, Some e)).
  { apply (f_equal fst) in H. vm_compute in H. subst o. eauto. }
  destruct Ho as (vf & e & ->).
  destruct (store_failure_cleans hub background abc_bad (boot calm) vf e W' H)
    as (_ & _ & Hl & _ & Hfs).
  exists vf, e, W'. split; [reflexivity |]. split; [apply Hfs; reflexivity | exact Hl].
Defined.

(** ** What a successful store leaves behind, and its release *)

Lemma checkFileSHA1_live fname sum W W' :
  checkFileSHA1 fname sum W = (Done tt, W') -> live W' ⊆ live W.
Proof.
  unfold checkFileSHA1. intros H.
  apply bind_Done in H as ([f err] & W1 & H1 & H).
  apply os_Open_spec in H1 as (_ & _ & _ & [(e & ? & _) | (? & _ & Hl1)]); simplify_eq.
  apply bind_Done in H as (x & W2 & H2 & H).
  apply File_ReadAll_spec in H2 as (_ & _ & Hl2 & _).
  apply bind_Done in H as (c & W3 & H3 & H).
  apply File_Close_spec in H3 as (_ & _ & Hl3 & _). cbn [fd] in Hl3.
  unfold ret in H. simplify_eq. rewrite Hl3, Hl2, Hl1. set_solver.
Qed.

Lemma store_success_state w ctx fi W vf W' :
  store w ctx fi W = (Done (vf, None), W') ->
  exists f data,
    vf = {| vf_Reader := Some (R_File f); vf_Closer := Some (fclose (Some f));
            vf_Name := File_Name f |} /\
    fs W !! File_Name f = None /\
    fs W' = <[File_Name f := data]> (fs W) /\
    live W' ⊆ {[fd f]} ∪ live W /\
    fd f ∈ live W' /\
    env W' = env W.
Proof.
  unfold store. intros H.
  apply bind_Done in H as ([] & W0 & H0 & H). unfold modify in H0. simplify_eq.
  set (W0 := log (EvStore (URL fi)) W) in *.
  change (live W) with (live W0). change (env W) with (env W0).
  change (fs W) with (fs W0).
  apply bind_Done in H as ([tempFile err] & W1 & H1 & H).
  apply ioutil_TempFile_spec in H1
    as (Hq1 & Ht1 & [(c & ? & _) | (nm & ? & Hfresh & Hfs1 & Hl1)]);
    simplify_eq; cbv beta iota in H.
  set (f0 := {| fd := tick W0; File_Name := nm |}) in *.
  apply bind_Done in H as ([body err] & W2 & H2 & H).
  apply stream_spec in H2 as (Hq2 & Hfs2 & Hl2 & [(c & msg & ? & _) | (? & _)]);
    simplify_eq; cbv beta iota in H; [by apply store_fail_not_ok in H |].
  apply bind_Done in H as ([hash err] & W3 & H3 & H).
  apply io_Copy_MultiWriter_frame in H3 as Hd3.
  apply io_Copy_MultiWriter_spec in H3 as (Hq3 & Hl3 & hash' & err' & ? & Hok); simplify_eq.
  destruct err' as [c |]; [by apply store_fail_not_ok in H |].
  destruct (Hok eq_refl) as (_ & -> & Hfile). clear Hok. cbn [app] in *.
  destruct (String.eqb _ _) eqn:Hsum; cbn [negb] in H; cbv beta iota in H;
    [| by apply store_fail_not_ok in H].
  apply bind_Done in H as (cerr & W4 & H4 & H).
  apply File_Close_spec in H4 as (Hq4 & Hfs4 & Hl4 & _).
  cbn [File_Name_of] in H.
  destruct cerr as [c |].
  { unfold bind at 1, ret at 1 in H. by apply store_fail_not_ok in H. }
  unfold bind at 1, ret at 1 in H.
  apply bind_Done in H as ([] & W5 & H5 & H).
  apply checkFileSHA1_live in H5 as Hl5.
  apply checkFileSHA1_spec in H5 as (Hq5 & Hfs5 & _).
  unfold bind at 1, ret at 1 in H.
  apply bind_Done in H as ([tempFile err] & W6 & H6 & H).
  apply os_Open_spec in H6 as (Hq6 & Ht6 & Hfs6 & [(c & ? & _) | (? & Hsome & Hl6)]);
    simplify_eq.
  cbn in H. unfold bind, ret in H. simplify_eq.
  exists {| fd := tick W5; File_Name := nm |},
    (concat (chunks (env_body (env W1) (S (tick W1))))).
  cbn [fd File_Name]. split; [reflexivity |]. split; [exact Hfresh |].
  split; [| split; [| split]].
  - rewrite Hfs6, Hfs5, Hfs4.
    rewrite <- (insert_delete_id (fs W3) nm (concat (chunks (env_body (env W1) (S (tick W1)))))).
    + cbn [File_Name] in Hd3. rewrite Hd3, Hfs2, Hfs1.
      by rewrite delete_insert_eq, insert_delete_eq.
    + apply (Hfile []). rewrite Hfs2, Hfs1. apply lookup_insert_eq.
  - assert (Hsub : live W5 ⊆ live W0).
    { etrans; [exact Hl5 |]. rewrite Hl4, Hl3, Hl2, Hl1. cbn [fd].
      clear. set_solver. }
    rewrite Hl6. clear - Hsub. set_solver.
  - rewrite Hl6. clear. set_solver.
  - destruct Hq1 as (E1 & _), Hq2 as (E2 & _), Hq3 as (E3 & _), Hq4 as (E4 & _),
      Hq5 as (E5 & _), Hq6 as (E6 & _). congruence.
Qed.

(** A successful [store] adds exactly one file to the spool directory,
    under a name that was free, and leaves exactly one more descriptor
    open, that of the file it returns: the write handle and the handle
    of the check are closed. *)
Theorem store_success_one_file w ctx fi W vf W' :
  store w ctx fi W = (Done (vf, None), W') ->
  exists f data,
    vf_Reader vf = Some (R_File f) /\
    vf_Name vf = File_Name f /\
    fs W !! File_Name f = None /\
    fs W' = <[File_Name f := data]> (fs W) /\
    live W' ⊆ {[fd f]} ∪ live W /\
    fd f ∈ live W'.
Proof.
  intros H. apply store_success_state in H
    as (f & data & -> & Hfresh & Hfs & Hl & Hin & _).
  exists f, data. by repeat split.
Qed.

Lemma store_success_one_file_witness :
  exists vf W' f data,
    store hub background abc_gz (boot calm) = (Done (vf, None), W') /\
    vf_Name vf = File_Name f /\
    fs W' = {[ File_Name f := data ]} /\
    fd f ∈ live W'.
Proof.
  destruct (store hub background abc_gz (boot calm)) as [o W'] eqn:H.
  assert (Ho : exists vf, o = Done (vf, None)).
  { apply (f_equal fst) in H. vm_compute in H. subst o. eauto. }
  destruct Ho as (vf & ->).
  destruct (store_success_one_file hub background abc_gz (boot calm) vf W' H)
    as (f & data & _ & Hn & _ & Hfs & _ & Hin).
  exists vf, W', f, data. split; [reflexivity |]. split; [exact Hn |].
  split; [| exact Hin]. rewrite Hfs. apply insert_empty.
Defined.

Lemma os_Remove_succeeds nm W r W' :
  os_Remove nm W = (r, W') ->
  env_fault (env W) (tick W) = None ->
  is_Some (fs W !! nm) ->
  r = Done None.
Proof. destruct W. intros H Hf [old Hold]. prim; done. Qed.

(** The release function of the file a successful [store] returns,
    called at once, closes the descriptor and, unless the outside
    refuses the removal, puts the spool directory back as [store] found
    it; it returns nil when neither the closing nor the removal is made
    to fail. *)
Theorem store_release_round_trip w ctx fi W vf W' :
  store w ctx fi W = (Done (vf, None), W') ->
  exists release err W'',
    vf_Closer vf = Some release /\
    release W' = (Done err, W'') /\
    live W'' ⊆ live W /\
    (env_fault (env W) (S (tick W')) = None -> fs W'' = fs W) /\
    (env_fault (env W) (tick W') = None ->
     env_fault (env W) (S (tick W')) = None -> err = None).
Proof.
  intros H. apply store_success_state in H
    as (f & data & -> & Hfresh & Hfs & Hl & Hin & Henv).
  exists (fclose (Some f)). cbn [vf_Closer].
  destruct (File_Close (Some f) W') as [o Wb] eqn:Hc.
  apply File_Close_spec in Hc as Hs. destruct Hs as (Hqb & Hfsb & Hlb & c & ->).
  assert (Htb : tick Wb = S (tick W') /\ c = env_fault (env W') (tick W')).
  { destruct W'. unfold File_Close in Hc. cbn in Hin. prim; done. }
  destruct Htb as (Htb & Hcv).
  destruct (os_Remove_total (File_Name f) Wb) as (rr & W'' & Hr).
  apply os_Remove_spec in Hr as Hs. destruct Hs as (_ & _ & Hl2 & Hrr).
  assert (Hrun : fclose (Some f) W'
                 = (Done (first_error
                            (errors_Wrap c ("Error while closing reader of file "
                                              +:+ File_Name f))
                            (errors_Wrap rr ("Error while removing file "
                                               +:+ File_Name f))), W'')).
  { unfold fclose. rewrite (bind_step _ _ _ _ _ Hc). cbn [File_Name_of].
    unfold bind at 1, ret at 1. unfold bind at 1, ret at 1.
    rewrite (bind_step _ _ _ _ _ Hr). unfold bind, ret.
    by destruct c. }
  eexists _, W''. split; [reflexivity |]. split; [exact Hrun |].
  assert (Heb : env Wb = env W) by (destruct Hqb as (-> & _); exact Henv).
  split; [| split].
  - rewrite Hl2, Hlb. set_solver.
  - intros Hok. rewrite <- Htb, <- Heb in Hok.
    rewrite (os_Remove_deletes _ _ _ _ Hr Hok), Hfsb, Hfs.
    by apply delete_insert_id.
  - intros Hok1 Hok2. rewrite <- Henv in Hok1. rewrite <- Hcv in Hok1. subst c.
    rewrite <- Htb, <- Heb in Hok2.
    assert (Hex : is_Some (fs Wb !! File_Name f)).
    { rewrite Hfsb, Hfs, lookup_insert_eq. eauto. }
    pose proof (os_Remove_succeeds _ _ _ _ Hr Hok2 Hex) as Hnil.
    injection Hnil as ->. by rewrite Hok1.
Qed.

Lemma store_release_round_trip_witness :
  exists vf W' release W'',
    store hub background abc_gz (boot calm) = (Done (vf, None), W') /\
    vf_Closer vf = Some release /\
    release W' = (Done None, W'') /\ fs W'' = ∅ /\ live W'' ⊆ ∅.
Proof.
  destruct (store hub background abc_gz (boot calm)) as [o W'] eqn:H.
  assert (Ho : exists vf, o = Done (vf, None)).
  { apply (f_equal fst) in H. vm_compute in H. subst o. eauto. }
  destruct Ho as (vf & ->).
  destruct (store_release_round_trip hub background abc_gz (boot calm) vf W' H)
    as (release & err & W'' & Hcl & Hrun & Hl & Hfs & Herr).
  assert (Hnil : err = None) by (apply Herr; reflexivity).
  rewrite Hnil in Hrun.
  exists vf, W', release, W''. split; [reflexivity |]. split; [exact Hcl |].
  split; [exact Hrun |]. split; [apply Hfs; reflexivity | exact Hl].
Defined.

(** The release function of [store], on a file, always returns; the
    descriptor is closed afterwards and no file other than the spooled
    one is touched.  When it returns nil the file was open and is now
    removed.  Run on a file that is closed, as a second run is, it
    returns the error of the closing, os.ErrClosed wrapped, whatever the
    removal answers. *)
Theorem fclose_releases f W :
  exists err W',
    fclose (Some f) W = (Done err, W') /\
    (fd f ∉ live W') /\
    delete (File_Name f) (fs W') = delete (File_Name f) (fs W) /\
    (err = None -> fd f ∈ live W /\ fs W' !! File_Name f = None) /\
    (fd f ∉ live W -> err = Some (already_closed f)) /\
    exists W'', fclose (Some f) W' = (Done (Some (already_closed f)), W'').
Proof.
  assert (Hgen : forall W0, exists c rr Wb W1,
            File_Close (Some f) W0 = (Done c, Wb) /\
            os_Remove (File_Name f) Wb = (Done rr, W1) /\
            fclose (Some f) W0
            = (Done (first_error
                       (errors_Wrap c ("Error while closing reader of file "
                                         +:+ File_Name f))
                       (errors_Wrap rr ("Error while removing file "
                                          +:+ File_Name f))), W1)).
  { intros W0. destruct (File_Close (Some f) W0) as [o Wb] eqn:Hc.
    apply File_Close_spec in Hc as Hs. destruct Hs as (_ & _ & _ & c & ->).
    destruct (os_Remove_total (File_Name f) Wb) as (rr & W1 & Hr).
    exists c, rr, Wb, W1. split; [done |]. split; [done |].
    unfold fclose. rewrite (bind_step _ _ _ _ _ Hc). cbn [File_Name_of].
    unfold bind at 1, ret at 1. unfold bind at 1, ret at 1.
    rewrite (bind_step _ _ _ _ _ Hr). unfold bind, ret. by destruct c. }
  assert (Hclosed : forall W0, fd f ∉ live W0 ->
            File_Close (Some f) W0 = (Done (Some ErrClosed), W0)).
  { intros W0 Hn. unfold File_Close, bind, get. cbn. by rewrite decide_False. }
  destruct (Hgen W) as (c & rr & Wb & W' & Hc & Hr & Hrun).
  apply File_Close_spec in Hc as Hs. destruct Hs as (_ & Hfsb & Hlb & _).
  apply os_Remove_spec in Hr as Hs. destruct Hs as (_ & _ & Hl' & Hrr).
  assert (Hout : fd f ∉ live W') by (rewrite Hl', Hlb; set_solver).
  eexists _, W'. split; [exact Hrun |]. split; [exact Hout |].
  split; [| split; [| split]].
  - destruct Hrr as [(e & _ & ->) | (_ & ->)]; [by rewrite Hfsb |].
    by rewrite delete_delete_eq, Hfsb.
  - intros Herr. destruct c as [c |]; [discriminate |]. cbn in Herr.
    destruct rr as [e |]; [discriminate |]. split.
    + destruct (decide (fd f ∈ live W)) as [Hin | Hn]; [done |].
      rewrite (Hclosed W Hn) in Hc. discriminate.
    + destruct Hrr as [(e & ? & _) | (_ & ->)]; [discriminate |]. apply lookup_delete_eq.
  - intros Hn. rewrite (Hclosed W Hn) in Hc. by simplify_eq.
  - destruct (Hgen W') as (c2 & rr2 & Wb2 & W'' & Hc2 & _ & Hrun2).
    rewrite (Hclosed W' Hout) in Hc2. simplify_eq. by exists W''.
Qed.

(** ** The check that only warns *)

(** checkFileSHA1 panics exactly when its os.Open fails, because the file
    is missing or because the outside refuses to open it: the warning it
    then prints reads the name of the nil file.  Otherwise it returns,
    and in both cases it leaves the files as they are and no descriptor
    open that was not open before. *)
Theorem checkFileSHA1_panics_iff fname sum W r W' :
  checkFileSHA1 fname sum W = (r, W') ->
  (r = Panicked nil_dereference <->
   env_fault (env W) (tick W) <> None \/ fs W !! fname = None) /\
  (r = Panicked nil_dereference \/ r = Done tt) /\
  fs W' = fs W /\
  live W' ⊆ live W.
Proof.
  intros H. apply checkFileSHA1_spec in H as Hs. destruct Hs as (_ & Hfs & Hr).
  split; [| split; [tauto | split; [exact Hfs |]]].
  - unfold checkFileSHA1 in H.
    destruct (os_Open fname W) as [o W1] eqn:Ho.
    unfold bind at 1 in H. rewrite Ho in H.
    destruct W as [e t fs0 l n tr]. unfold os_Open in Ho. cbn in *.
    destruct (env_fault e t) as [err |] eqn:Hf.
    + prim. split; [by left | done].
    + destruct (fs0 !! fname) as [old |] eqn:Hlook.
      * prim; (split; [done | intros [? | ?]; done]).
      * prim. split; [by right | done].
  - destruct Hr as [-> | ->].
    + by apply checkFileSHA1_live in H.
    + unfold checkFileSHA1 in H.
      destruct (os_Open fname W) as [o W1] eqn:Ho. unfold bind at 1 in H. rewrite Ho in H.
      apply os_Open_spec in Ho as (_ & _ & _ & [(e & -> & Hl) | (-> & _ & _)]).
      * cbn in H. unfold bind, panic in H. simplify_eq. by rewrite Hl.
      * cbv beta iota in H.
        destruct (File_ReadAll (Some {| fd := tick W; File_Name := fname |}) W1)
          as [o2 W2] eqn:Hr2.
        apply File_ReadAll_spec in Hr2 as Hs. destruct Hs as (_ & _ & _ & x & ->).
        unfold bind at 1 in H. rewrite Hr2 in H.
        destruct (File_Close (Some {| fd := tick W; File_Name := fname |}) W2)
          as [o3 W3] eqn:Hc3.
        apply File_Close_spec in Hc3 as Hs. destruct Hs as (_ & _ & _ & c & ->).
        unfold bind in H. rewrite Hc3 in H. discriminate.
Qed.

Lemma checkFileSHA1_panics_iff_witness :
  fst (checkFileSHA1 "/tmp/missing" "" (boot calm)) = Panicked nil_dereference.
Proof.
  destruct (checkFileSHA1 "/tmp/missing" "" (boot calm)) as [r W'] eqn:H.
  apply checkFileSHA1_panics_iff in H as (Hiff & _).
  apply Hiff. right. reflexivity.
Defined.
